(** * libaddb/addb-smap-remove.c: removal and truncation of an smap database

    A shallow embedding of [addb_smap_remove] and [addb_smap_truncate].
    Both functions are sequences of calls into collaborators (allocator, log
    sink, filesystem, largefile store, tiled descriptors); the embedding
    threads an abstract world through those calls and records every call,
    with its result, in a trace. *)

From Stdlib Require Import ZArith String Ascii List Bool Lia.
From stdpp Require Import base list strings pretty.

Local Open Scope Z_scope.

(** ** Data model *)

(** Opaque handles ([cl_handle*], [cm_handle*], [addb_tiled*]) are identified
    by a number. *)
Definition cl_handle := nat.
Definition cm_handle := nat.
Definition addb_tiled := nat.

Record addb_handle := {
  addb_cl : cl_handle;
  addb_cm : cm_handle
}.

(** [part_td] is a pointer in the source; [None] is the null pointer. *)
Record addb_smap_partition := {
  part_path : string;
  part_td : option addb_tiled
}.

(** [sm_partition] is the partition array, [sm_partition_n] the number of
    live slots at its front. *)
Record addb_smap := {
  sm_addb : addb_handle;
  sm_partition : list addb_smap_partition;
  sm_partition_n : nat
}.

(** <errno.h> *)
Definition ENOENT : Z := 2.
Arguments ENOENT : simpl never.

Inductive cl_loglevel := CL_LEVEL_ERROR.

(** The format string of each [cl_log_errno] call with its arguments. *)
Inductive log_message :=
| MsgAllocFailed (bytes : Z)
| MsgCantRemovePartition (partition_path : string)
| MsgCantRemoveLargefiles (path : string)
| MsgCantRemoveDirectory (path : string)
| MsgCantTurnOffBackup (part_path : string)
| MsgCantClose (path : string)
| MsgCantRemove (path : string).

Record log_record := {
  log_cl : cl_handle;
  log_level : cl_loglevel;
  log_called : string;
  log_err : Z;
  log_msg : log_message
}.

(** One entry per call that leaves the two functions, with what it returned.
    [Unlink] and [Rmdir] also carry the value of [errno] after the call. *)
Inductive event :=
| Malloc (cm : cm_handle) (size : Z) (ok : bool)
| Free (cm : cm_handle)
| Log (r : log_record)
| Unlink (path : string) (rv : Z) (en : Z)
| LargefileRemove (path : string) (rv : Z)
| Rmdir (path : string) (rv : Z) (en : Z)
| TiledBackup (td : addb_tiled) (on : bool) (rv : Z)
| SmapClose (sm : addb_smap) (rv : Z).

(** ** Collaborators

    Everything the two functions use and do not define: the constant and the
    basename helper of libaddb/addbp.h and libaddb/addb-smap.h, the allocator
    and log sink of the handle, libc, the largefile store and the tiled
    layer.  [W] is the state of the world they act on. *)
Class Addbp (W : Type) := {
  ADDB_GMAP_PARTITIONS_MAX : nat;
  addb_smap_partition_basename : addb_handle -> nat -> Z -> string;
  os_errno : W -> Z;
  os_cm_malloc : cm_handle -> Z -> W -> bool * W;
  os_cm_free : cm_handle -> W -> W;
  os_cl_log_errno : log_record -> W -> W;
  os_unlink : string -> W -> Z * W;
  os_rmdir : string -> W -> Z * W;
  os_addb_largefile_remove : string -> cl_handle -> cm_handle -> W -> Z * W;
  os_addb_tiled_backup : addb_tiled -> bool -> W -> Z * W;
  os_addb_smap_close : addb_smap -> W -> Z * W
}.

(** ** The monad: a computation maps a world to its result, the world it
    leaves behind and the calls it made, oldest first. *)
Definition M (W A : Type) : Type := W -> A * W * list event.

Definition ret {W A} (a : A) : M W A := fun w => (a, w, []).

Definition bind {W A B} (m : M W A) (k : A -> M W B) : M W B :=
  fun w =>
    let '(a, w1, t1) := m w in
    let '(b, w2, t2) := k a w1 in
    (b, w2, t1 ++ t2).

Declare Scope addb_scope.
Delimit Scope addb_scope with addb.
Notation "x <- c ;; k" := (bind c (fun x => k))
  (at level 100, c at next level, right associativity) : addb_scope.
Notation "c ;; k" := (bind c (fun _ => k))
  (at level 100, right associativity) : addb_scope.
Local Open Scope addb_scope.

Definition result {W A} (r : A * W * list event) : A := fst (fst r).
Definition world {W A} (r : A * W * list event) : W := snd (fst r).
Definition trace {W A} (r : A * W * list event) : list event := snd r.

(** [size_t] arithmetic, 64 bits. *)
Definition size_add (a b : Z) : Z := (a + b) mod 2 ^ 64.

Definition strlen (s : string) : Z := Z.of_nat (String.length s).

(** [s[strlen(s) - 1]], when there is one. *)
Fixpoint last_char (s : string) : option ascii :=
  match s with
  | EmptyString => None
  | String c EmptyString => Some c
  | String _ s' => last_char s'
  end.

Definition slash : ascii := "/"%char.

Section Program.
Context {W : Type} `{Addbp W}.

(** *** The calls *)

Definition errno : M W Z := fun w => (os_errno w, w, []).

Definition cm_malloc (cm : cm_handle) (size : Z) : M W bool :=
  fun w => let '(ok, w') := os_cm_malloc cm size w in (ok, w', [Malloc cm size ok]).

Definition cm_free (cm : cm_handle) : M W unit :=
  fun w => (tt, os_cm_free cm w, [Free cm]).

Definition cl_log_errno (cl : cl_handle) (level : cl_loglevel) (called : string)
    (err : Z) (msg : log_message) : M W unit :=
  fun w =>
    let r := {| log_cl := cl; log_level := level; log_called := called;
                log_err := err; log_msg := msg |} in
    (tt, os_cl_log_errno r w, [Log r]).

Definition unlink (path : string) : M W Z :=
  fun w => let '(rv, w') := os_unlink path w in (rv, w', [Unlink path rv (os_errno w')]).

Definition rmdir (path : string) : M W Z :=
  fun w => let '(rv, w') := os_rmdir path w in (rv, w', [Rmdir path rv (os_errno w')]).

Definition addb_largefile_remove (path : string) (cl : cl_handle) (cm : cm_handle)
    : M W Z :=
  fun w =>
    let '(rv, w') := os_addb_largefile_remove path cl cm w in
    (rv, w', [LargefileRemove path rv]).

Definition addb_tiled_backup (td : addb_tiled) (on : bool) : M W Z :=
  fun w =>
    let '(rv, w') := os_addb_tiled_backup td on w in (rv, w', [TiledBackup td on rv]).

Definition addb_smap_close (sm : addb_smap) : M W Z :=
  fun w => let '(rv, w') := os_addb_smap_close sm w in (rv, w', [SmapClose sm rv]).

(** *** addb_smap_remove *)

(** Lines 57-62: the directory string is copied to the front of the scratch
    buffer and a slash is appended unless the string is empty or already ends
    in one; the second component is what is left of [partition_base_n]. *)
Definition partition_prefix (path : string) : string * Z :=
  match last_char path with
  | Some c => if Ascii.eqb c slash then (path, 80) else (path +:+ "/", 80 - 1)
  | None => (path, 80)
  end.

(** What [partition_path] holds after the basename of [partition] has been
    written at [partition_base]. *)
Definition partition_path_of (addb : addb_handle) (path : string) (partition : nat)
    : string :=
  let '(prefix, partition_base_n) := partition_prefix path in
  prefix +:+ addb_smap_partition_basename addb partition partition_base_n.

(** Lines 65-76, one turn of the loop.  [err] is [None] as long as the local
    variable has not been assigned. *)
Definition remove_partition (addb : addb_handle) (path : string) (partition : nat)
    (err : option Z) : M W (option Z) :=
  let partition_path := partition_path_of addb path partition in
  rv <- unlink partition_path ;;
  if rv =? 0 then ret err
  else
    e <- errno ;;
    if ENOENT =? e then ret (Some 0)
    else
      cl_log_errno (addb_cl addb) CL_LEVEL_ERROR "unlink" e
        (MsgCantRemovePartition partition_path) ;;
      ret (Some e).

(** Line 64: [n] turns remain, [partition] is the loop counter. *)
Fixpoint remove_partitions (addb : addb_handle) (path : string) (n : nat)
    (partition : nat) (err : option Z) : M W (option Z) :=
  match n with
  | O => ret err
  | S n' =>
      err' <- remove_partition addb path partition err ;;
      remove_partitions addb path n' (S partition) err'
  end.

Definition addb_smap_remove (addb : addb_handle) (path : string) : M W Z :=
  let partition_base_n := 80 in
  let path_n := strlen path in
  partition_path <- cm_malloc (addb_cm addb) (size_add path_n partition_base_n) ;;
  if negb partition_path then
    err <- errno ;;
    cl_log_errno (addb_cl addb) CL_LEVEL_ERROR "cm_malloc" err
      (MsgAllocFailed (size_add path_n partition_base_n)) ;;
    ret err
  else
    remove_partitions addb path ADDB_GMAP_PARTITIONS_MAX 0 None ;;
    cm_free (addb_cm addb) ;;
    err <- addb_largefile_remove path (addb_cl addb) (addb_cm addb) ;;
    (if err =? 0 then ret tt
     else cl_log_errno (addb_cl addb) CL_LEVEL_ERROR "addb_largefile_remove" err
            (MsgCantRemoveLargefiles path)) ;;
    rv <- rmdir path ;;
    if rv =? 0 then ret err
    else
      e <- errno ;;
      cl_log_errno (addb_cl addb) CL_LEVEL_ERROR "rmdir" e
        (MsgCantRemoveDirectory path) ;;
      ret (if err =? 0 then e else err).

(** *** addb_smap_truncate *)

(** Lines 105-114, one turn of the loop on the slot at index [part].  A slot
    index past the end of the array is read as a slot without descriptor. *)
Definition disable_backup (addb : addb_handle) (sm : addb_smap) (part : nat)
    (err : Z) : M W Z :=
  match sm_partition sm !! part with
  | Some p =>
      match part_td p with
      | Some td =>
          e <- addb_tiled_backup td false ;;
          if e =? 0 then ret err
          else
            cl_log_errno (addb_cl addb) CL_LEVEL_ERROR "addb_tiled_backup" e
              (MsgCantTurnOffBackup (part_path p)) ;;
            ret (if err =? 0 then e else err)
      | None => ret err
      end
  | None => ret err
  end.

(** Line 104: [n] is [part_end - part]. *)
Fixpoint disable_backups (addb : addb_handle) (sm : addb_smap) (n : nat)
    (part : nat) (err : Z) : M W Z :=
  match n with
  | O => ret err
  | S n' =>
      err' <- disable_backup addb sm part err ;;
      disable_backups addb sm n' (S part) err'
  end.

(** The handle [sm] is a pointer in the source; [None] is the null pointer. *)
Definition addb_smap_truncate (sm : option addb_smap) (path : string) : M W Z :=
  match sm with
  | Some sm =>
      let addb := sm_addb sm in
      let part_end := Z.of_nat (sm_partition_n sm) - 1 in
      err <- disable_backups addb sm (Z.to_nat (part_end - 0)) 0 0 ;;
      e <- addb_smap_close sm ;;
      err <- (if e =? 0 then ret err
              else
                cl_log_errno (addb_cl addb) CL_LEVEL_ERROR "addb_smap_close" e
                  (MsgCantClose path) ;;
                ret (if err =? 0 then e else err)) ;;
      e <- addb_smap_remove addb path ;;
      (if e =? 0 then ret err
       else
         cl_log_errno (addb_cl addb) CL_LEVEL_ERROR "addb_smap_remove" e
           (MsgCantRemove path) ;;
         ret (if err =? 0 then e else err))
  | None => ret 0
  end.

End Program.


(** ** Reading a trace *)

(** What one turn of the loop leaves in the trace when [unlink] returned [rv]
    with [errno] at [en]: the call, and a log record unless the call succeeded
    or the file was missing. *)
Definition unlink_events (addb : addb_handle) (partition_path : string) (rv en : Z)
    : list event :=
  Unlink partition_path rv en ::
  (if (rv =? 0) || (ENOENT =? en) then []
   else [Log {| log_cl := addb_cl addb; log_level := CL_LEVEL_ERROR;
                log_called := "unlink"; log_err := en;
                log_msg := MsgCantRemovePartition partition_path |}]).

(** What one turn of the loop leaves in [err]. *)
Definition err_after (err : option Z) (rv en : Z) : option Z :=
  if rv =? 0 then err else if ENOENT =? en then Some 0 else Some en.

(** The three steps of [addb_smap_remove]. *)
Inductive step := StepPartition | StepLargefile | StepDirectory.

Definition step_of (e : event) : option step :=
  match e with
  | Unlink _ _ _ => Some StepPartition
  | LargefileRemove _ _ => Some StepLargefile
  | Rmdir _ _ _ => Some StepDirectory
  | _ => None
  end.

Definition steps (t : list event) : list step := omap step_of t.

(** The paths handed to [unlink], in call order. *)
Definition unlinked (t : list event) : list string :=
  omap (fun e => match e with Unlink p _ _ => Some p | _ => None end) t.

(** What largefile removal returned, and the error code of directory removal
    (0 when [rmdir] returned 0, [errno] otherwise). *)
Definition largefile_status (t : list event) : option Z :=
  head (omap (fun e => match e with LargefileRemove _ rv => Some rv | _ => None end) t).

Definition rmdir_status (t : list event) : option Z :=
  head (omap (fun e => match e with
                       | Rmdir _ rv en => Some (if rv =? 0 then 0 else en)
                       | _ => None
                       end) t).

(** Every [unlink] in the trace failed for want of a file. *)
Definition unlinks_missing (t : list event) : bool :=
  forallb (fun e => match e with
                    | Unlink _ rv en => negb (rv =? 0) && (ENOENT =? en)
                    | _ => true
                    end) t.

(** The error codes handed to the log sink, in call order. *)
Definition logged (t : list event) : list Z :=
  omap (fun e => match e with Log r => Some (log_err r) | _ => None end) t.

Definition log_if (cl : cl_handle) (called : string) (err : Z) (msg : log_message)
    : list event :=
  if err =? 0 then []
  else [Log {| log_cl := cl; log_level := CL_LEVEL_ERROR; log_called := called;
               log_err := err; log_msg := msg |}].

(** Events of the partition loop are calls to [unlink] and to the log sink. *)
Definition loop_event (e : event) : bool :=
  match e with Unlink _ _ _ | Log _ => true | _ => false end.

(** The scratch-buffer allocation of [addb_smap_remove] succeeds in [w]. *)
Definition alloc_ok {W : Type} `{Addbp W} (addb : addb_handle) (path : string)
    (w : W) : bool :=
  (os_cm_malloc (addb_cm addb) (size_add (strlen path) 80) w).1.

(** The error code of the second and third step together. *)
Definition removal_status (lf st : Z) : Z := if lf =? 0 then st else lf.

(** The descriptors attached to a run of slots, each with the path of its
    partition. *)
Definition attached (slots : list addb_smap_partition) : list (addb_tiled * string) :=
  omap (fun p => (fun td => (td, part_path p)) <$> part_td p) slots.

(** The slots the backup pass of [addb_smap_truncate] walks over: all but the
    last of the [sm_partition_n] live ones. *)
Definition backup_slots (sm : addb_smap) : list addb_smap_partition :=
  take (sm_partition_n sm - 1) (sm_partition sm).

Definition backup_events (addb : addb_handle) (tp : addb_tiled * string) (e : Z)
    : list event :=
  TiledBackup tp.1 false e
  :: log_if (addb_cl addb) "addb_tiled_backup" e (MsgCantTurnOffBackup tp.2).

(** [if (!err) err = e;] *)
Definition keep_first (err e : Z) : Z := if err =? 0 then e else err.

(** The first nonzero code of a list, 0 when there is none. *)
Fixpoint first_error (rs : list Z) : Z :=
  match rs with
  | [] => 0
  | e :: rs' => if e =? 0 then first_error rs' else e
  end.


(** The calls of [addb_smap_truncate] that the order contract speaks of. *)
Inductive phase := BackupDisable | BackupEnable | Close | Deletion.

Definition phase_of (e : event) : option phase :=
  match e with
  | TiledBackup _ false _ => Some BackupDisable
  | TiledBackup _ true _ => Some BackupEnable
  | SmapClose _ _ => Some Close
  | Unlink _ _ _ | LargefileRemove _ _ | Rmdir _ _ _ => Some Deletion
  | Malloc _ _ _ | Free _ | Log _ => None
  end.

Definition phases (t : list event) : list phase := omap phase_of t.

(** The descriptors handed to [addb_tiled_backup] with the flag they were
    given, and what the calls returned, in call order. *)
Definition backup_calls (t : list event) : list (addb_tiled * bool) :=
  omap (fun e => match e with TiledBackup td on _ => Some (td, on) | _ => None end) t.

Definition backup_results (t : list event) : list Z :=
  omap (fun e => match e with TiledBackup _ _ rv => Some rv | _ => None end) t.

Definition close_results (t : list event) : list Z :=
  omap (fun e => match e with SmapClose _ rv => Some rv | _ => None end) t.

(** Events of [addb_smap_remove]: anything but the tiled layer. *)
Definition remove_event (e : event) : bool :=
  match e with TiledBackup _ _ _ | SmapClose _ _ => false | _ => true end.

Definition ends_in_slash (s : string) : bool :=
  match last_char s with
  | Some c => Ascii.eqb c slash
  | None => false
  end.

(** The directory string without its last character when that is a slash. *)
Fixpoint strip_slash (s : string) : string :=
  match s with
  | EmptyString => EmptyString
  | String c EmptyString => if Ascii.eqb c slash then EmptyString else s
  | String c s' => String c (strip_slash s')
  end.

(** Every [unlink] in the trace succeeded or found no file. *)
Definition unlinks_quiet (t : list event) : bool :=
  forallb (fun e => match e with
                    | Unlink _ rv en => (rv =? 0) || (ENOENT =? en)
                    | _ => true
                    end) t.

(** The calls of a trace without their results and without the log records:
    which collaborator was called, on which handle or path. *)
Inductive call :=
| CallMalloc (cm : cm_handle) (size : Z)
| CallFree (cm : cm_handle)
| CallUnlink
| CallLargefileRemove (path : string)
| CallRmdir (path : string)
| CallTiledBackup (td : addb_tiled) (on : bool)
| CallSmapClose.

Definition call_of (e : event) : option call :=
  match e with
  | Malloc cm size _ => Some (CallMalloc cm size)
  | Free cm => Some (CallFree cm)
  | Log _ => None
  | Unlink _ _ _ => Some CallUnlink
  | LargefileRemove path _ => Some (CallLargefileRemove path)
  | Rmdir path _ _ => Some (CallRmdir path)
  | TiledBackup td on _ => Some (CallTiledBackup td on)
  | SmapClose _ _ => Some CallSmapClose
  end.

Definition outline (t : list event) : list call := omap call_of t.

(** What the allocator answered, in call order. *)
Definition alloc_results (t : list event) : list bool :=
  omap (fun e => match e with Malloc _ _ ok => Some ok | _ => None end) t.

(** Modelled from the spec: [addb_smap_partition_basename], the basename
    helper that [addb_smap_remove] calls and that is not under src/.  Section
    4.1 gives its contract: deterministic, pure, no I/O, "a distinct, stable
    name per index", "a bounded-length basename written into caller-supplied
    storage".  The name written is a function [name] of the index alone; the
    handle and the capacity of the storage do not change it. *)
Definition spec_partition_basename (name : nat -> string)
    : addb_handle -> nat -> Z -> string :=
  fun _ partition _ => name partition.

(** The collaborators [S] with [basename] for basename helper. *)
Definition with_basename {W : Type} (S : Addbp W)
    (basename : addb_handle -> nat -> Z -> string) : Addbp W :=
  {| ADDB_GMAP_PARTITIONS_MAX := @ADDB_GMAP_PARTITIONS_MAX W S;
     addb_smap_partition_basename := basename;
     os_errno := @os_errno W S;
     os_cm_malloc := @os_cm_malloc W S;
     os_cm_free := @os_cm_free W S;
     os_cl_log_errno := @os_cl_log_errno W S;
     os_unlink := @os_unlink W S;
     os_rmdir := @os_rmdir W S;
     os_addb_largefile_remove := @os_addb_largefile_remove W S;
     os_addb_tiled_backup := @os_addb_tiled_backup W S;
     os_addb_smap_close := @os_addb_smap_close W S |}.

(** ** A test double for the collaborators

    A small world to run the two functions on: a set of directories and
    regular files, some of them protected against removal, an allocator that
    can be told to refuse, and scripted answers for the largefile store and
    the tiled layer. *)
Module Double.

Definition ENOMEM : Z := 12.
Definition EACCES : Z := 13.
Definition ENOTEMPTY : Z := 39.

Record fs := {
  d_errno : Z;
  d_nomem : bool;
  d_dirs : list string;
  d_files : list string;
  d_protected : list string;
  d_largefile : Z;
  d_backup : addb_tiled -> Z;
  d_close : Z
}.

Definition set_errno (e : Z) (w : fs) : fs :=
  {| d_errno := e; d_nomem := d_nomem w; d_dirs := d_dirs w; d_files := d_files w;
     d_protected := d_protected w; d_largefile := d_largefile w;
     d_backup := d_backup w; d_close := d_close w |}.

Definition set_files (l : list string) (w : fs) : fs :=
  {| d_errno := d_errno w; d_nomem := d_nomem w; d_dirs := d_dirs w; d_files := l;
     d_protected := d_protected w; d_largefile := d_largefile w;
     d_backup := d_backup w; d_close := d_close w |}.

Definition set_protected (l : list string) (w : fs) : fs :=
  {| d_errno := d_errno w; d_nomem := d_nomem w; d_dirs := d_dirs w;
     d_files := d_files w; d_protected := l; d_largefile := d_largefile w;
     d_backup := d_backup w; d_close := d_close w |}.

Definition set_nomem (b : bool) (w : fs) : fs :=
  {| d_errno := d_errno w; d_nomem := b; d_dirs := d_dirs w;
     d_files := d_files w; d_protected := d_protected w;
     d_largefile := d_largefile w; d_backup := d_backup w; d_close := d_close w |}.

Definition set_dirs (l : list string) (w : fs) : fs :=
  {| d_errno := d_errno w; d_nomem := d_nomem w; d_dirs := l; d_files := d_files w;
     d_protected := d_protected w; d_largefile := d_largefile w;
     d_backup := d_backup w; d_close := d_close w |}.

Definition mem (p : string) (l : list string) : bool := existsb (String.eqb p) l.
Definition del (p : string) (l : list string) : list string :=
  List.filter (fun q => negb (String.eqb p q)) l.

(** A file lies in directory [d] when its name starts with [d] and a slash. *)
Definition inside (d : string) (f : string) : bool :=
  String.prefix (fst (partition_prefix d)) f.

Definition basename (_ : addb_handle) (i : nat) (bufsize : Z) : string :=
  String.substring 0 (Z.to_nat (bufsize - 1))
    ("smap-" +:+ pretty (N.of_nat i)).

Definition malloc (_ : cm_handle) (_ : Z) (w : fs) : bool * fs :=
  if d_nomem w then (false, set_errno ENOMEM w) else (true, w).

Definition unlink (p : string) (w : fs) : Z * fs :=
  if mem p (d_files w) then
    if mem p (d_protected w) then (-1, set_errno EACCES w)
    else (0, set_files (del p (d_files w)) w)
  else (-1, set_errno ENOENT w).

Definition rmdir (d : string) (w : fs) : Z * fs :=
  if mem d (d_dirs w) then
    if existsb (inside d) (d_files w) then (-1, set_errno ENOTEMPTY w)
    else (0, set_dirs (del d (d_dirs w)) w)
  else (-1, set_errno ENOENT w).

#[global] Instance services : Addbp fs := {|
  ADDB_GMAP_PARTITIONS_MAX := 1024;
  addb_smap_partition_basename := basename;
  os_errno := d_errno;
  os_cm_malloc := malloc;
  os_cm_free := fun _ w => w;
  os_cl_log_errno := fun _ w => w;
  os_unlink := unlink;
  os_rmdir := rmdir;
  os_addb_largefile_remove := fun _ _ _ w => (d_largefile w, w);
  os_addb_tiled_backup := fun td _ w => (d_backup w td, w);
  os_addb_smap_close := fun _ w => (d_close w, w)
|}.

Definition addb : addb_handle := {| addb_cl := 1%nat; addb_cm := 2%nat |}.

(** Nothing on disk. *)
Definition bare : fs :=
  {| d_errno := 0; d_nomem := false; d_dirs := []; d_files := [];
     d_protected := []; d_largefile := 0; d_backup := fun _ => 0; d_close := 0 |}.

(** The directory /data/db with the first [k] partition files. *)
Definition populated (k : nat) : fs :=
  set_dirs ["/data/db"]
    (set_files (map (partition_path_of addb "/data/db") (seq 0 k)) bare).

(** The same with five partition files and an allocator that refuses. *)
Definition starved : fs := set_nomem true (populated 5).

(** Five partition files, the one at index 3 protected against removal. *)
Definition guarded : fs :=
  set_protected [partition_path_of addb "/data/db" 3] (populated 5).

(** Five partition files and a file that does not belong to the database. *)
Definition littered : fs :=
  set_files ("/data/db/stray" :: d_files (populated 5)) (populated 5).

(** An open smap on /data/db with four live slots; the one at index 1 has no
    descriptor. *)
Definition smap4 : addb_smap :=
  {| sm_addb := addb;
     sm_partition :=
       [ {| part_path := partition_path_of addb "/data/db" 0; part_td := Some 10%nat |};
         {| part_path := partition_path_of addb "/data/db" 1; part_td := None |};
         {| part_path := partition_path_of addb "/data/db" 2; part_td := Some 12%nat |};
         {| part_path := partition_path_of addb "/data/db" 3; part_td := Some 13%nat |} ];
     sm_partition_n := 4 |}.

(** Four partition files; the backup toggle of descriptor 12 fails with 5 and
    the close with 9. *)
Definition troubled : fs :=
  {| d_errno := 0; d_nomem := false; d_dirs := d_dirs (populated 4);
     d_files := d_files (populated 4); d_protected := []; d_largefile := 0;
     d_backup := fun td => if Nat.eqb td 12 then 5 else 0; d_close := 9 |}.

(** The name the double gives to the partition of an index. *)
Definition name (i : nat) : string := "smap-" +:+ pretty (N.of_nat i).

(** The same collaborators with eight partition slots. *)
Definition services8 : Addbp fs :=
  {| ADDB_GMAP_PARTITIONS_MAX := 8;
     addb_smap_partition_basename := basename;
     os_errno := d_errno;
     os_cm_malloc := malloc;
     os_cm_free := fun _ w => w;
     os_cl_log_errno := fun _ w => w;
     os_unlink := unlink;
     os_rmdir := rmdir;
     os_addb_largefile_remove := fun _ _ _ w => (d_largefile w, w);
     os_addb_tiled_backup := fun td _ w => (d_backup w td, w);
     os_addb_smap_close := fun _ w => (d_close w, w) |}.

(** Five partition files and a stray file; largefile removal fails with 5. *)
Definition soured : fs :=
  {| d_errno := 0; d_nomem := false; d_dirs := d_dirs littered;
     d_files := d_files littered; d_protected := []; d_largefile := 5;
     d_backup := fun _ => 0; d_close := 0 |}.

(** An open smap with a single live slot, which has a descriptor. *)
Definition smap1 : addb_smap :=
  {| sm_addb := addb;
     sm_partition :=
       [ {| part_path := partition_path_of addb "/data/db" 0; part_td := Some 10%nat |} ];
     sm_partition_n := 1 |}.

End Double.

(** ** Running a computation *)

Section Runs.
Context {W : Type} `{Addbp W}.

Lemma result_bind {A B} (m : M W A) (k : A -> M W B) (w : W) :
  result (bind m k w) = result (k (result (m w)) (world (m w))).
Proof.
  unfold bind, result, world. destruct (m w) as [[a w1] t1]. simpl.
  destruct (k a w1) as [[b w2] t2]. reflexivity.
Qed.

Lemma world_bind {A B} (m : M W A) (k : A -> M W B) (w : W) :
  world (bind m k w) = world (k (result (m w)) (world (m w))).
Proof.
  unfold bind, result, world. destruct (m w) as [[a w1] t1]. simpl.
  destruct (k a w1) as [[b w2] t2]. reflexivity.
Qed.

Lemma trace_bind {A B} (m : M W A) (k : A -> M W B) (w : W) :
  trace (bind m k w) = trace (m w) ++ trace (k (result (m w)) (world (m w))).
Proof.
  unfold bind, result, world, trace. destruct (m w) as [[a w1] t1]. simpl.
  destruct (k a w1) as [[b w2] t2]. reflexivity.
Qed.

Lemma unlink_run (p : string) (w : W) :
  unlink p w
  = ((os_unlink p w).1, (os_unlink p w).2,
     [Unlink p (os_unlink p w).1 (os_errno (os_unlink p w).2)]).
Proof. unfold unlink. destruct (os_unlink p w). reflexivity. Qed.

Lemma rmdir_run (p : string) (w : W) :
  rmdir p w
  = ((os_rmdir p w).1, (os_rmdir p w).2,
     [Rmdir p (os_rmdir p w).1 (os_errno (os_rmdir p w).2)]).
Proof. unfold rmdir. destruct (os_rmdir p w). reflexivity. Qed.

Lemma cm_malloc_run (cm : cm_handle) (n : Z) (w : W) :
  cm_malloc cm n w
  = ((os_cm_malloc cm n w).1, (os_cm_malloc cm n w).2,
     [Malloc cm n (os_cm_malloc cm n w).1]).
Proof. unfold cm_malloc. destruct (os_cm_malloc cm n w). reflexivity. Qed.

Lemma addb_largefile_remove_run (p : string) (cl : cl_handle) (cm : cm_handle)
    (w : W) :
  addb_largefile_remove p cl cm w
  = ((os_addb_largefile_remove p cl cm w).1, (os_addb_largefile_remove p cl cm w).2,
     [LargefileRemove p (os_addb_largefile_remove p cl cm w).1]).
Proof.
  unfold addb_largefile_remove. destruct (os_addb_largefile_remove p cl cm w).
  reflexivity.
Qed.

Lemma addb_tiled_backup_run (td : addb_tiled) (on : bool) (w : W) :
  addb_tiled_backup td on w
  = ((os_addb_tiled_backup td on w).1, (os_addb_tiled_backup td on w).2,
     [TiledBackup td on (os_addb_tiled_backup td on w).1]).
Proof.
  unfold addb_tiled_backup. destruct (os_addb_tiled_backup td on w). reflexivity.
Qed.

Lemma addb_smap_close_run (sm : addb_smap) (w : W) :
  addb_smap_close sm w
  = ((os_addb_smap_close sm w).1, (os_addb_smap_close sm w).2,
     [SmapClose sm (os_addb_smap_close sm w).1]).
Proof. unfold addb_smap_close. destruct (os_addb_smap_close sm w). reflexivity. Qed.

End Runs.

(** ** The partition loop *)

Section PartitionLoop.
Context {W : Type} `{Addbp W}.

Lemma remove_partition_run (addb : addb_handle) (path : string) (i : nat)
    (err : option Z) (w : W) :
  exists rv en,
    trace (remove_partition addb path i err w)
      = unlink_events addb (partition_path_of addb path i) rv en /\
    result (remove_partition addb path i err w) = err_after err rv en.
Proof.
  unfold remove_partition, unlink_events, err_after.
  rewrite trace_bind, result_bind, unlink_run.
  cbn [trace result world fst snd].
  destruct (os_unlink (partition_path_of addb path i) w) as [rv w1].
  exists rv, (os_errno w1). cbn [fst snd].
  destruct (rv =? 0); cbn [orb].
  - split; reflexivity.
  - rewrite trace_bind, result_bind. cbn [errno trace result world fst snd].
    destruct (ENOENT =? os_errno w1).
    + split; reflexivity.
    + rewrite trace_bind, result_bind. split; reflexivity.
Qed.

Lemma remove_partitions_run (addb : addb_handle) (path : string) (n i : nat)
    (err : option Z) (w : W) :
  exists outcomes : list (Z * Z),
    length outcomes = n /\
    trace (remove_partitions addb path n i err w)
      = flat_map (fun io => unlink_events addb (partition_path_of addb path io.1)
                              io.2.1 io.2.2)
          (zip (seq i n) outcomes) /\
    result (remove_partitions addb path n i err w)
      = fold_left (fun e o => err_after e o.1 o.2) outcomes err.
Proof.
  revert i err w. induction n as [|n IH]; intros i err w.
  - exists []. repeat split.
  - cbn [remove_partitions]. rewrite trace_bind, result_bind.
    destruct (remove_partition_run addb path i err w) as (rv & en & Ht & Hr).
    destruct (IH (S i) (result (remove_partition addb path i err w))
                (world (remove_partition addb path i err w)))
      as (os & Hlen & Hts & Hrs).
    exists ((rv, en) :: os). split; [cbn; lia|]. split.
    + rewrite Ht, Hts. reflexivity.
    + rewrite Hrs, Hr. reflexivity.
Qed.

End PartitionLoop.

Lemma unlink_events_loop (addb : addb_handle) (f : nat -> string)
    (ios : list (nat * (Z * Z))) :
  forallb loop_event
    (flat_map (fun io => unlink_events addb (f io.1) io.2.1 io.2.2) ios) = true.
Proof.
  induction ios as [|[i [rv en]] ios IH]; [reflexivity|].
  cbn [flat_map]. rewrite forallb_app, IH, andb_true_r.
  unfold unlink_events. cbn. destruct ((rv =? 0) || (ENOENT =? en)); reflexivity.
Qed.

Lemma unlink_events_steps (addb : addb_handle) (f : nat -> string)
    (ios : list (nat * (Z * Z))) :
  steps (flat_map (fun io => unlink_events addb (f io.1) io.2.1 io.2.2) ios)
  = replicate (length ios) StepPartition.
Proof.
  unfold steps. induction ios as [|[i [rv en]] ios IH]; [reflexivity|].
  cbn [flat_map]. rewrite omap_app, IH.
  unfold unlink_events. cbn. destruct ((rv =? 0) || (ENOENT =? en)); reflexivity.
Qed.

Lemma unlink_events_unlinked (addb : addb_handle) (f : nat -> string)
    (ios : list (nat * (Z * Z))) :
  unlinked (flat_map (fun io => unlink_events addb (f io.1) io.2.1 io.2.2) ios)
  = map (fun io => f io.1) ios.
Proof.
  unfold unlinked. induction ios as [|[i [rv en]] ios IH]; [reflexivity|].
  cbn [flat_map]. rewrite omap_app, IH.
  unfold unlink_events. cbn. destruct ((rv =? 0) || (ENOENT =? en)); reflexivity.
Qed.

Lemma omap_cons {A B} (g : A -> option B) (x : A) (l : list A) :
  omap g (x :: l) = match g x with Some y => y :: omap g l | None => omap g l end.
Proof. reflexivity. Qed.

Lemma omap_loop_events {A} (g : event -> option A) (t : list event) :
  (forall e, loop_event e = true -> g e = None) ->
  forallb loop_event t = true -> omap g t = [].
Proof.
  intros Hg. induction t as [|e t IH]; [reflexivity|].
  cbn [forallb]. intros [He Ht]%andb_true_iff.
  cbn. rewrite (Hg e He). apply IH, Ht.
Qed.

(** ** addb_smap_remove, step by step *)

Section Remove.
Context {W : Type} `{Addbp W}.

Lemma addb_smap_remove_nomem (addb : addb_handle) (path : string) (w : W) :
  alloc_ok addb path w = false ->
  let w1 := (os_cm_malloc (addb_cm addb) (size_add (strlen path) 80) w).2 in
  trace (addb_smap_remove addb path w)
    = [Malloc (addb_cm addb) (size_add (strlen path) 80) false;
       Log {| log_cl := addb_cl addb; log_level := CL_LEVEL_ERROR;
              log_called := "cm_malloc"; log_err := os_errno w1;
              log_msg := MsgAllocFailed (size_add (strlen path) 80) |}] /\
  result (addb_smap_remove addb path w) = os_errno w1.
Proof.
  unfold alloc_ok, addb_smap_remove. intros Hno.
  rewrite trace_bind, result_bind, cm_malloc_run.
  cbn [trace result world fst snd]. rewrite Hno. cbn [negb].
  rewrite !trace_bind, !result_bind. split; reflexivity.
Qed.

Lemma addb_smap_remove_run (addb : addb_handle) (path : string) (w : W) :
  alloc_ok addb path w = true ->
  exists (outcomes : list (Z * Z)) (lf rv en : Z),
    length outcomes = ADDB_GMAP_PARTITIONS_MAX /\
    trace (addb_smap_remove addb path w)
      = Malloc (addb_cm addb) (size_add (strlen path) 80) true
        :: flat_map (fun io => unlink_events addb (partition_path_of addb path io.1)
                                 io.2.1 io.2.2)
             (zip (seq 0 ADDB_GMAP_PARTITIONS_MAX) outcomes)
        ++ Free (addb_cm addb)
        :: LargefileRemove path lf
        :: log_if (addb_cl addb) "addb_largefile_remove" lf
             (MsgCantRemoveLargefiles path)
        ++ Rmdir path rv en
        :: (if rv =? 0 then []
            else [Log {| log_cl := addb_cl addb; log_level := CL_LEVEL_ERROR;
                         log_called := "rmdir"; log_err := en;
                         log_msg := MsgCantRemoveDirectory path |}]) /\
    result (addb_smap_remove addb path w)
      = removal_status lf (if rv =? 0 then 0 else en).
Proof.
  unfold alloc_ok, addb_smap_remove. intros Hok.
  rewrite trace_bind, result_bind, cm_malloc_run.
  cbn [trace result world fst snd]. rewrite Hok. cbn [negb].
  set (w1 := (os_cm_malloc _ _ w).2).
  rewrite trace_bind, result_bind.
  destruct (remove_partitions_run addb path ADDB_GMAP_PARTITIONS_MAX 0 None w1)
    as (outcomes & Hlen & Hloop & _).
  rewrite Hloop.
  set (w2 := world (remove_partitions _ _ _ _ _ w1)).
  rewrite trace_bind, result_bind. cbn [cm_free trace result world fst snd].
  rewrite trace_bind, result_bind, addb_largefile_remove_run.
  cbn [trace result world fst snd].
  set (lf := (os_addb_largefile_remove _ _ _ _).1).
  set (w3 := (os_addb_largefile_remove _ _ _ _).2).
  rewrite trace_bind, result_bind.
  set (w4 := world _).
  rewrite trace_bind, result_bind, rmdir_run. cbn [trace result world fst snd].
  set (rv := (os_rmdir path w4).1). set (w5 := (os_rmdir path w4).2).
  exists outcomes, lf, rv, (os_errno w5).
  split; [exact Hlen|].
  unfold removal_status, log_if.
  destruct (rv =? 0) eqn:Hrv.
  - split.
    + cbn [ret trace app]. destruct (lf =? 0); cbn; rewrite <- ?app_assoc; reflexivity.
    + cbn. destruct (lf =? 0) eqn:Hlf; [apply Z.eqb_eq in Hlf; congruence|reflexivity].
  - rewrite !trace_bind, !result_bind. split.
    + cbn [ret trace app errno cl_log_errno result world fst snd].
      destruct (lf =? 0); cbn; rewrite <- ?app_assoc; reflexivity.
    + reflexivity.
Qed.

End Remove.

Ltac loop_blind := intros [] ?; first [reflexivity | discriminate].

Section RemoveFacts.
Context {W : Type} `{Addbp W}.

Lemma addb_smap_remove_status (addb : addb_handle) (path : string) (w : W) :
  alloc_ok addb path w = true ->
  exists lf st : Z,
    largefile_status (trace (addb_smap_remove addb path w)) = Some lf /\
    rmdir_status (trace (addb_smap_remove addb path w)) = Some st /\
    result (addb_smap_remove addb path w) = removal_status lf st.
Proof.
  intros Hok.
  destruct (addb_smap_remove_run addb path w Hok)
    as (outcomes & lf & rv & en & _ & Ht & Hr).
  exists lf, (if rv =? 0 then 0 else en).
  rewrite Ht, Hr. unfold largefile_status, rmdir_status.
  split; [|split; [|reflexivity]].
  - rewrite omap_cons, omap_app. cbn [omap].
    rewrite omap_loop_events;
      [reflexivity | loop_blind | apply unlink_events_loop].
  - rewrite omap_cons, omap_app.
    rewrite omap_loop_events;
      [| loop_blind | apply unlink_events_loop].
    unfold log_if. destruct (lf =? 0); reflexivity.
Qed.

Lemma addb_smap_remove_steps (addb : addb_handle) (path : string) (w : W) :
  alloc_ok addb path w = true ->
  steps (trace (addb_smap_remove addb path w))
  = replicate ADDB_GMAP_PARTITIONS_MAX StepPartition ++ [StepLargefile; StepDirectory].
Proof.
  intros Hok.
  destruct (addb_smap_remove_run addb path w Hok)
    as (outcomes & lf & rv & en & Hlen & Ht & _).
  rewrite Ht. unfold steps at 1. rewrite omap_cons, omap_app.
  fold (steps (flat_map (fun io => unlink_events addb (partition_path_of addb path io.1)
                                     io.2.1 io.2.2)
                 (zip (seq 0 ADDB_GMAP_PARTITIONS_MAX) outcomes))).
  rewrite unlink_events_steps, length_zip, length_seq, Hlen, Nat.min_id.
  unfold log_if. cbn [step_of].
  destruct (lf =? 0), (rv =? 0); reflexivity.
Qed.

End RemoveFacts.

(** ** addb_smap_truncate, step by step *)

Lemma keep_first_0 (err : Z) : keep_first err 0 = err.
Proof.
  unfold keep_first. destruct (err =? 0) eqn:E; [apply Z.eqb_eq in E; congruence|reflexivity].
Qed.

Lemma fold_keep_first (rs : list Z) (err : Z) :
  fold_left keep_first rs err = if err =? 0 then first_error rs else err.
Proof.
  revert err. induction rs as [|e rs IH]; intros err; cbn [fold_left first_error].
  - destruct (err =? 0) eqn:E; [apply Z.eqb_eq in E; congruence|reflexivity].
  - rewrite IH. unfold keep_first. destruct (err =? 0) eqn:E; [reflexivity|].
    rewrite E. reflexivity.
Qed.

Section Truncate.
Context {W : Type} `{Addbp W}.

Lemma disable_backup_run (addb : addb_handle) (sm : addb_smap) (i : nat)
    (err : Z) (w : W) :
  match attached (take 1 (drop i (sm_partition sm))) with
  | tp :: _ =>
      exists e, trace (disable_backup addb sm i err w) = backup_events addb tp e /\
                result (disable_backup addb sm i err w) = keep_first err e
  | [] =>
      trace (disable_backup addb sm i err w) = [] /\
      result (disable_backup addb sm i err w) = err
  end.
Proof.
  unfold disable_backup.
  destruct (sm_partition sm !! i) as [p|] eqn:Hp.
  - rewrite (drop_S _ _ _ Hp). cbn [take]. unfold attached. rewrite omap_cons.
    destruct (part_td p) as [td|]; cbn [fmap option_fmap option_map omap list_omap];
      [|split; reflexivity].
    rewrite trace_bind, result_bind, addb_tiled_backup_run.
    cbn [trace result world fst snd].
    exists (os_addb_tiled_backup td false w).1.
    unfold backup_events, log_if, keep_first. cbn [fst snd].
    destruct (_ =? 0) eqn:He.
    + split; [reflexivity|]. cbn [ret result fst]. apply Z.eqb_eq in He. rewrite He.
      destruct (err =? 0) eqn:E; [apply Z.eqb_eq in E; congruence|reflexivity].
    + rewrite trace_bind, result_bind. split; reflexivity.
  - rewrite (drop_ge (sm_partition sm) i) by (apply lookup_ge_None; exact Hp).
    split; reflexivity.
Qed.

Lemma attached_take_S (l : list addb_smap_partition) (n i : nat) :
  attached (take (S n) (drop i l))
  = attached (take 1 (drop i l)) ++ attached (take n (drop (S i) l)).
Proof.
  unfold attached. rewrite <- omap_app. f_equal.
  destruct (l !! i) as [p|] eqn:Hp.
  - rewrite (drop_S _ _ _ Hp). reflexivity.
  - apply lookup_ge_None in Hp.
    rewrite (drop_ge l i), (drop_ge l (S i)) by lia. rewrite !take_nil. reflexivity.
Qed.

Lemma disable_backups_run (addb : addb_handle) (sm : addb_smap) (n i : nat)
    (err : Z) (w : W) :
  exists rs : list Z,
    length rs = length (attached (take n (drop i (sm_partition sm)))) /\
    trace (disable_backups addb sm n i err w)
      = flat_map (fun tr => backup_events addb tr.1 tr.2)
          (zip (attached (take n (drop i (sm_partition sm)))) rs) /\
    result (disable_backups addb sm n i err w) = fold_left keep_first rs err.
Proof.
  revert i err w. induction n as [|n IH]; intros i err w.
  - exists []. rewrite take_0. repeat split.
  - cbn [disable_backups]. rewrite trace_bind, result_bind, attached_take_S.
    pose proof (disable_backup_run addb sm i err w) as Hone.
    destruct (IH (S i) (result (disable_backup addb sm i err w))
                (world (disable_backup addb sm i err w)))
      as (rs & Hlen & Ht & Hr).
    rewrite Ht, Hr.
    destruct (attached (take 1 (drop i (sm_partition sm)))) as [|tp [|tp' tps]] eqn:Hat.
    + destruct Hone as [-> ->]. exists rs. auto.
    + destruct Hone as (e & -> & ->). exists (e :: rs).
      split; [cbn; lia|]. split; reflexivity.
    + exfalso. revert Hat. unfold attached.
      destruct (drop i (sm_partition sm)) as [|slot r]; [discriminate|].
      cbn. destruct (part_td slot); discriminate.
Qed.

Lemma addb_smap_truncate_run (sm : addb_smap) (path : string) (w : W) :
  exists (rs : list Z) (c : Z) (w1 : W),
    length rs = length (attached (backup_slots sm)) /\
    trace (addb_smap_truncate (Some sm) path w)
      = flat_map (fun tr => backup_events (sm_addb sm) tr.1 tr.2)
          (zip (attached (backup_slots sm)) rs)
        ++ SmapClose sm c
        :: log_if (addb_cl (sm_addb sm)) "addb_smap_close" c (MsgCantClose path)
        ++ trace (addb_smap_remove (sm_addb sm) path w1)
        ++ log_if (addb_cl (sm_addb sm)) "addb_smap_remove"
             (result (addb_smap_remove (sm_addb sm) path w1)) (MsgCantRemove path) /\
    result (addb_smap_truncate (Some sm) path w)
      = first_error (rs ++ [c; result (addb_smap_remove (sm_addb sm) path w1)]).
Proof.
  cbn [addb_smap_truncate].
  replace (Z.to_nat (Z.of_nat (sm_partition_n sm) - 1 - 0))
    with (sm_partition_n sm - 1)%nat by lia.
  rewrite trace_bind, result_bind.
  destruct (disable_backups_run (sm_addb sm) sm (sm_partition_n sm - 1) 0 0 w)
    as (rs & Hlen & Ht & Hr).
  rewrite drop_0 in Hlen, Ht. fold (backup_slots sm) in Hlen, Ht.
  rewrite Ht, Hr.
  set (w0 := world (disable_backups _ _ _ _ _ w)).
  rewrite trace_bind, result_bind, addb_smap_close_run.
  cbn [trace result world fst snd].
  set (c := (os_addb_smap_close sm w0).1).
  rewrite trace_bind, result_bind.
  set (wc := (os_addb_smap_close sm w0).2).
  match goal with
  | |- context [world (?m wc)] => set (close_step := m wc)
  end.
  rewrite trace_bind, result_bind.
  exists rs, c, (world close_step).
  set (rm := addb_smap_remove (sm_addb sm) path (world close_step)).
  split; [exact Hlen|].
  assert (Hclose : trace close_step
                   = log_if (addb_cl (sm_addb sm)) "addb_smap_close" c (MsgCantClose path)
                   /\ result close_step = keep_first (fold_left keep_first rs 0) c).
  { subst close_step. unfold log_if, keep_first. destruct (c =? 0) eqn:Hc.
    - split; [reflexivity|]. cbn [ret result fst]. apply Z.eqb_eq in Hc. rewrite Hc.
      destruct (_ =? 0) eqn:E; [apply Z.eqb_eq in E; congruence|reflexivity].
    - rewrite trace_bind, result_bind. split; reflexivity. }
  destruct Hclose as [Htc Hrc]. rewrite Htc, Hrc.
  assert (Hfe : first_error (rs ++ [c; result rm])
                = keep_first (keep_first (fold_left keep_first rs 0) c) (result rm)).
  { change (keep_first (keep_first (fold_left keep_first rs 0) c) (result rm))
      with (fold_left keep_first [c; result rm] (fold_left keep_first rs 0)).
    rewrite <- fold_left_app, fold_keep_first. reflexivity. }
  rewrite Hfe. unfold log_if at 3.
  destruct (result rm =? 0) eqn:Hrm.
  - cbn [ret trace result fst snd]. split.
    + reflexivity.
    + apply Z.eqb_eq in Hrm. rewrite Hrm, keep_first_0. reflexivity.
  - rewrite trace_bind, result_bind. split.
    + reflexivity.
    + reflexivity.
Qed.

End Truncate.

(** ** Properties of addb_smap_remove *)

Section RemoveTheorems.
Context {W : Type} `{Addbp W}.

(** C3, amended. With the scratch buffer allocated, every partition file
    missing and largefile removal reporting success, [addb_smap_remove]
    returns the error code of [rmdir]: 0 when the directory could be removed,
    the missing partition files being no error, and ENOENT, not 0, when the
    directory itself is missing. *)
Theorem addb_smap_remove_missing_files (addb : addb_handle) (path : string) (w : W)
    (st : Z) :
  alloc_ok addb path w = true ->
  unlinks_missing (trace (addb_smap_remove addb path w)) = true ->
  largefile_status (trace (addb_smap_remove addb path w)) = Some 0 ->
  rmdir_status (trace (addb_smap_remove addb path w)) = Some st ->
  result (addb_smap_remove addb path w) = st.
Proof.
  intros Hok _ Hlf Hst.
  destruct (addb_smap_remove_status addb path w Hok) as (lf & st' & Hl & Hs & Hr).
  rewrite Hr. rewrite Hl in Hlf. rewrite Hs in Hst.
  injection Hlf as ->. injection Hst as ->. reflexivity.
Qed.

(** A failing [rmdir] always surfaces: whatever the earlier steps did, the
    value returned is not 0. *)
Lemma addb_smap_remove_rmdir_failure (addb : addb_handle) (path : string) (w : W)
    (st : Z) :
  alloc_ok addb path w = true ->
  rmdir_status (trace (addb_smap_remove addb path w)) = Some st ->
  st <> 0 ->
  result (addb_smap_remove addb path w) <> 0.
Proof.
  intros Hok Hst Hnz.
  destruct (addb_smap_remove_status addb path w Hok) as (lf & st' & _ & Hs & ->).
  rewrite Hs in Hst. injection Hst as ->.
  unfold removal_status. destruct (lf =? 0) eqn:E; [exact Hnz|].
  apply Z.eqb_neq, E.
Qed.

End RemoveTheorems.

(** C10. When the scratch buffer is allocated, the value [addb_smap_remove]
    returns depends on nothing but what largefile removal returned and the
    error code of [rmdir]: two runs that agree on those return the same value,
    whatever their [unlink] calls did. *)
Theorem addb_smap_remove_ignores_unlink_outcomes
    {W1 : Type} {S1 : Addbp W1} {W2 : Type} {S2 : Addbp W2}
    (addb1 addb2 : addb_handle) (path1 path2 : string) (w1 : W1) (w2 : W2) :
  alloc_ok addb1 path1 w1 = true ->
  alloc_ok addb2 path2 w2 = true ->
  largefile_status (trace (addb_smap_remove addb1 path1 w1))
    = largefile_status (trace (addb_smap_remove addb2 path2 w2)) ->
  rmdir_status (trace (addb_smap_remove addb1 path1 w1))
    = rmdir_status (trace (addb_smap_remove addb2 path2 w2)) ->
  result (addb_smap_remove addb1 path1 w1) = result (addb_smap_remove addb2 path2 w2).
Proof.
  intros Hok1 Hok2 Hlf Hrd.
  destruct (addb_smap_remove_status addb1 path1 w1 Hok1) as (lf1 & st1 & Hl1 & Hs1 & ->).
  destruct (addb_smap_remove_status addb2 path2 w2 Hok2) as (lf2 & st2 & Hl2 & Hs2 & ->).
  congruence.
Qed.

(** ** Properties of addb_smap_truncate *)

Lemma backup_events_phases (addb : addb_handle)
    (trs : list (addb_tiled * string * Z)) :
  phases (flat_map (fun tr => backup_events addb tr.1 tr.2) trs)
  = replicate (length trs) BackupDisable.
Proof.
  unfold phases. induction trs as [|[tp e] trs IH]; [reflexivity|].
  cbn [flat_map]. rewrite omap_app, IH.
  unfold backup_events, log_if. cbn [fst snd]. destruct (e =? 0); reflexivity.
Qed.

Lemma backup_events_calls (addb : addb_handle)
    (trs : list (addb_tiled * string * Z)) :
  backup_calls (flat_map (fun tr => backup_events addb tr.1 tr.2) trs)
  = map (fun tr => (tr.1.1, false)) trs.
Proof.
  unfold backup_calls. induction trs as [|[tp e] trs IH]; [reflexivity|].
  cbn [flat_map]. rewrite omap_app, IH.
  unfold backup_events, log_if. cbn [fst snd]. destruct (e =? 0); reflexivity.
Qed.

Lemma backup_events_results (addb : addb_handle)
    (trs : list (addb_tiled * string * Z)) :
  backup_results (flat_map (fun tr => backup_events addb tr.1 tr.2) trs) = trs.*2 /\
  close_results (flat_map (fun tr => backup_events addb tr.1 tr.2) trs) = [] /\
  logged (flat_map (fun tr => backup_events addb tr.1 tr.2) trs)
    = filter (fun e => e <> 0) trs.*2.
Proof.
  unfold backup_results, close_results, logged.
  induction trs as [|[tp e] trs (IH1 & IH2 & IH3)]; [repeat split|].
  cbn [flat_map]. rewrite !omap_app, IH1, IH2, IH3.
  unfold backup_events, log_if. cbn [fst snd fmap list_fmap].
  rewrite filter_cons.
  destruct (e =? 0) eqn:He.
  - apply Z.eqb_eq in He. subst e. repeat split.
  - apply Z.eqb_neq in He. rewrite decide_True by exact He. repeat split.
Qed.

Lemma log_if_blind {A} (g : event -> option A) (cl : cl_handle) (called : string)
    (err : Z) (msg : log_message) :
  (forall r, g (Log r) = None) -> omap g (log_if cl called err msg) = [].
Proof.
  intros Hg. unfold log_if. destruct (err =? 0); [reflexivity|].
  rewrite omap_cons, Hg. reflexivity.
Qed.

Lemma log_if_logged (cl : cl_handle) (called : string) (err : Z) (msg : log_message) :
  logged (log_if cl called err msg) = filter (fun e => e <> 0) [err].
Proof.
  unfold log_if, logged. rewrite filter_cons.
  destruct (err =? 0) eqn:He.
  - apply Z.eqb_eq in He. subst err. reflexivity.
  - apply Z.eqb_neq in He. rewrite decide_True by exact He. reflexivity.
Qed.

Lemma omap_remove_events {A} (g : event -> option A) (t : list event) :
  (forall e, remove_event e = true -> g e = None) ->
  forallb remove_event t = true -> omap g t = [].
Proof.
  intros Hg. induction t as [|e t IH]; [reflexivity|].
  cbn [forallb]. intros [He Ht]%andb_true_iff.
  rewrite omap_cons, (Hg e He). apply IH, Ht.
Qed.

Lemma phases_remove_events (t : list event) :
  forallb remove_event t = true ->
  phases t = replicate (length (steps t)) Deletion.
Proof.
  unfold phases, steps. induction t as [|e t IH]; [reflexivity|].
  cbn [forallb]. intros [He Ht]%andb_true_iff.
  rewrite !omap_cons. destruct e as [| | | | | |? []|]; cbn in He |- *;
    try discriminate; rewrite (IH Ht); reflexivity.
Qed.

Lemma attached_descriptors (slots : list addb_smap_partition) :
  (attached slots).*1 = omap part_td slots.
Proof.
  unfold attached. induction slots as [|p slots IH]; [reflexivity|].
  rewrite !omap_cons. destruct (part_td p); cbn; rewrite IH; reflexivity.
Qed.

Section TruncateTheorems.
Context {W : Type} `{Addbp W}.

Lemma addb_smap_remove_events (addb : addb_handle) (path : string) (w : W) :
  forallb remove_event (trace (addb_smap_remove addb path w)) = true.
Proof.
  destruct (alloc_ok addb path w) eqn:Hok.
  - destruct (addb_smap_remove_run addb path w Hok)
      as (outcomes & lf & rv & en & _ & -> & _).
    cbn [forallb remove_event andb]. rewrite forallb_app. apply andb_true_iff. split.
    + eapply forallb_forall. intros e He.
      pose proof (unlink_events_loop addb (partition_path_of addb path)
                    (zip (seq 0 ADDB_GMAP_PARTITIONS_MAX) outcomes)) as Hl.
      rewrite forallb_forall in Hl. specialize (Hl e He).
      destruct e; try discriminate; reflexivity.
    + unfold log_if. destruct (lf =? 0), (rv =? 0); reflexivity.
  - destruct (addb_smap_remove_nomem addb path w Hok) as [-> _]. reflexivity.
Qed.

(** C5. Every run of [addb_smap_truncate] on a non-null smap makes its calls
    in this order: the backup-disable calls, one per descriptor attached to a
    slot before the last live one; then the close of the smap; then the
    filesystem deletions of [addb_smap_remove].  No deletion comes before the
    close and no backup call after it. *)
Theorem addb_smap_truncate_order (sm : addb_smap) (path : string) (w : W) :
  exists m : nat,
    phases (trace (addb_smap_truncate (Some sm) path w))
    = replicate (length (attached (backup_slots sm))) BackupDisable
      ++ Close :: replicate m Deletion.
Proof.
  destruct (addb_smap_truncate_run sm path w) as (rs & c & w1 & Hlen & Ht & _).
  exists (length (steps (trace (addb_smap_remove (sm_addb sm) path w1)))).
  rewrite Ht. unfold phases at 1. rewrite omap_app, omap_cons, !omap_app.
  rewrite !log_if_blind by reflexivity.
  fold (phases (flat_map (fun tr => backup_events (sm_addb sm) tr.1 tr.2)
                  (zip (attached (backup_slots sm)) rs))).
  fold (phases (trace (addb_smap_remove (sm_addb sm) path w1))).
  rewrite backup_events_phases, length_zip, Hlen, Nat.min_id.
  rewrite phases_remove_events by apply addb_smap_remove_events.
  cbn [phase_of app]. rewrite app_nil_r. reflexivity.
Qed.

(** C6. On a non-null smap with [sm_partition_n] = N, the calls of
    [addb_smap_truncate] to [addb_tiled_backup] are exactly these, in order
    and whatever any of them returns: one call, with the flag off, for each
    slot among the first N - 1 that has a descriptor.  Slot N - 1 gets none,
    nor does a slot without descriptor. *)
Theorem addb_smap_truncate_backup_calls (sm : addb_smap) (path : string) (w : W) :
  backup_calls (trace (addb_smap_truncate (Some sm) path w))
  = map (fun td => (td, false))
      (omap part_td (take (sm_partition_n sm - 1) (sm_partition sm))).
Proof.
  destruct (addb_smap_truncate_run sm path w) as (rs & c & w1 & Hlen & Ht & _).
  rewrite Ht. unfold backup_calls at 1. rewrite omap_app, omap_cons, !omap_app.
  rewrite !log_if_blind by reflexivity.
  rewrite (omap_remove_events _ (trace (addb_smap_remove (sm_addb sm) path w1)))
    by (try apply addb_smap_remove_events; intros [] ?; first [reflexivity|discriminate]).
  fold (backup_calls (flat_map (fun tr => backup_events (sm_addb sm) tr.1 tr.2)
                        (zip (attached (backup_slots sm)) rs))).
  rewrite backup_events_calls. cbn [app]. rewrite app_nil_r.
  fold (backup_slots sm). rewrite <- attached_descriptors.
  rewrite <- (fst_zip (attached (backup_slots sm)) rs) at 2 by lia.
  rewrite <- !list_fmap_compose. reflexivity.
Qed.

(** C7. On a non-null smap, [addb_smap_truncate] returns the first nonzero
    code among the results of its backup-disable calls in order, then the
    result of the close, then the result of [addb_smap_remove] (which runs
    last, on the world the close left), and 0 when all of them are 0.  Every
    nonzero one of these codes is handed to the log sink, returned or not. *)
Theorem addb_smap_truncate_first_error (sm : addb_smap) (path : string) (w : W) :
  exists (pre : list event) (c : Z) (w1 : W),
    let rm := addb_smap_remove (sm_addb sm) path w1 in
    let post := log_if (addb_cl (sm_addb sm)) "addb_smap_remove" (result rm)
                  (MsgCantRemove path) in
    trace (addb_smap_truncate (Some sm) path w) = pre ++ trace rm ++ post /\
    close_results pre = [c] /\
    result (addb_smap_truncate (Some sm) path w)
      = first_error (backup_results pre ++ [c; result rm]) /\
    logged (pre ++ post)
      = filter (fun e => e <> 0) (backup_results pre ++ [c; result rm]).
Proof.
  destruct (addb_smap_truncate_run sm path w) as (rs & c & w1 & Hlen & Ht & Hr).
  set (bk := flat_map (fun tr => backup_events (sm_addb sm) tr.1 tr.2)
               (zip (attached (backup_slots sm)) rs)) in *.
  exists (bk ++ SmapClose sm c
             :: log_if (addb_cl (sm_addb sm)) "addb_smap_close" c (MsgCantClose path)),
    c, w1.
  cbn zeta.
  destruct (backup_events_results (sm_addb sm) (zip (attached (backup_slots sm)) rs))
    as (Hb & Hc & Hl).
  fold bk in Hb, Hc, Hl. rewrite snd_zip in Hb, Hl by lia.
  assert (Hbr : backup_results
                  (bk ++ SmapClose sm c
                      :: log_if (addb_cl (sm_addb sm)) "addb_smap_close" c
                           (MsgCantClose path)) = rs).
  { unfold backup_results. rewrite omap_app, omap_cons.
    rewrite log_if_blind by reflexivity.
    fold (backup_results bk). rewrite Hb. apply app_nil_r. }
  rewrite Hbr. repeat split.
  - rewrite Ht. rewrite <- app_assoc. reflexivity.
  - unfold close_results. rewrite omap_app, omap_cons.
    rewrite log_if_blind by reflexivity. fold (close_results bk). rewrite Hc.
    reflexivity.
  - exact Hr.
  - unfold logged. rewrite !omap_app, omap_cons. cbn [app].
    fold (logged bk).
    fold (logged (log_if (addb_cl (sm_addb sm)) "addb_smap_close" c (MsgCantClose path))).
    fold (logged (log_if (addb_cl (sm_addb sm)) "addb_smap_remove"
                    (result (addb_smap_remove (sm_addb sm) path w1))
                    (MsgCantRemove path))).
    rewrite Hl, !log_if_logged, filter_app.
    change [c; result (addb_smap_remove (sm_addb sm) path w1)]
      with ([c] ++ [result (addb_smap_remove (sm_addb sm) path w1)]).
    rewrite filter_app, app_assoc. reflexivity.
Qed.

(** C8. On a null smap [addb_smap_truncate] returns 0, leaves the world as it
    found it and calls nothing: no backup toggle, no close, no filesystem
    call, no allocation, no log record. *)
Theorem addb_smap_truncate_null (path : string) (w : W) :
  addb_smap_truncate None path w = (0, w, []).
Proof. reflexivity. Qed.

End TruncateTheorems.

(** ** The partition path *)

Lemma append_assoc (a b c : string) : (a +:+ b) +:+ c = a +:+ b +:+ c.
Proof.
  induction a as [|x a IH]; [reflexivity|].
  change (String x ((a +:+ b) +:+ c) = String x (a +:+ b +:+ c)).
  rewrite IH. reflexivity.
Qed.

Lemma last_char_append (s : string) (c : ascii) :
  last_char (s +:+ String c EmptyString) = Some c.
Proof.
  induction s as [|x s IH]; [reflexivity|].
  change (last_char (String x (s +:+ String c EmptyString)) = Some c).
  destruct (s +:+ String c EmptyString) as [|y t] eqn:E.
  - destruct s; discriminate.
  - rewrite <- IH. reflexivity.
Qed.

Lemma last_char_nonempty (s : string) : s <> EmptyString -> exists c, last_char s = Some c.
Proof.
  induction s as [|x s IH]; [congruence|]. intros _.
  destruct s as [|y s]; [exists x; reflexivity|].
  destruct IH as [c Hc]; [discriminate|]. exists c. exact Hc.
Qed.

Lemma strip_slash_ends (s : string) :
  ends_in_slash s = true -> strip_slash s +:+ String slash EmptyString = s.
Proof.
  unfold ends_in_slash. induction s as [|x s IH]; [discriminate|].
  destruct s as [|y s].
  - cbn. intros Hx. rewrite Hx. apply Ascii.eqb_eq in Hx. subst x. reflexivity.
  - intros Hl. change (String x (strip_slash (String y s) +:+ String slash EmptyString)
                       = String x (String y s)).
    f_equal. apply IH. exact Hl.
Qed.

Lemma strip_slash_keeps (s : string) : ends_in_slash s = false -> strip_slash s = s.
Proof.
  unfold ends_in_slash. induction s as [|x s IH]; [reflexivity|].
  destruct s as [|y s].
  - cbn. intros ->. reflexivity.
  - intros Hl. change (String x (strip_slash (String y s)) = String x (String y s)).
    f_equal. apply IH. exact Hl.
Qed.

Section PartitionPath.
Context {W : Type} `{Addbp W}.

Lemma partition_path_strip (addb : addb_handle) (path : string) (i : nat) :
  path <> EmptyString ->
  partition_path_of addb path i
    = strip_slash path +:+ String slash EmptyString
      +:+ addb_smap_partition_basename addb i (if ends_in_slash path then 80 else 79).
Proof.
  intros Hne. destruct (last_char_nonempty path Hne) as [c Hc].
  unfold partition_path_of, partition_prefix.
  destruct (ends_in_slash path) eqn:He; unfold ends_in_slash in He;
    rewrite Hc in He |- *; rewrite He.
  - rewrite <- append_assoc, strip_slash_ends; [reflexivity|].
    unfold ends_in_slash. rewrite Hc. exact He.
  - rewrite strip_slash_keeps, append_assoc; [reflexivity|].
    unfold ends_in_slash. rewrite Hc. exact He.
Qed.

End PartitionPath.

(** ** The two functions on the test double *)

Example remove_populated :
  result (addb_smap_remove Double.addb "/data/db" (Double.populated 5)) = 0 /\
  Double.d_files (world (addb_smap_remove Double.addb "/data/db" (Double.populated 5))) = [] /\
  Double.d_dirs (world (addb_smap_remove Double.addb "/data/db" (Double.populated 5))) = [].
Proof. vm_compute. repeat split. Qed.

Example remove_littered :
  result (addb_smap_remove Double.addb "/data/db" Double.littered) = Double.ENOTEMPTY /\
  Double.d_files (world (addb_smap_remove Double.addb "/data/db" Double.littered))
    = ["/data/db/stray"].
Proof. vm_compute. repeat split. Qed.

Example truncate_troubled :
  let r := addb_smap_truncate (Some Double.smap4) "/data/db" Double.troubled in
  result r = 5 /\
  backup_calls (trace r) = [(10%nat, false); (12%nat, false)] /\
  logged (trace r) = [5; 9] /\
  Double.d_files (world r) = [].
Proof. vm_compute. repeat split. Qed.

Example truncate_troubled_order :
  phases (trace (addb_smap_truncate (Some Double.smap4) "/data/db" Double.troubled))
  = [BackupDisable; BackupDisable; Close] ++ replicate 1026 Deletion.
Proof. vm_compute. reflexivity. Qed.

Example partition_path_with_and_without_slash :
  partition_path_of Double.addb "/data/db" 5 = "/data/db/smap-5" /\
  partition_path_of Double.addb "/data/db/" 5 = "/data/db/smap-5".
Proof. vm_compute. split; reflexivity. Qed.

(** C1. With the partition file at index 3 protected, its [unlink] fails with
    EACCES, largefile removal succeeds and [rmdir] fails with ENOTEMPTY: the
    first step that failed is the partition removal, and the value returned
    is the code of [rmdir], not EACCES. *)
Theorem addb_smap_remove_loses_partition_error :
  let r := addb_smap_remove Double.addb "/data/db" Double.guarded in
  In (Unlink "/data/db/smap-3" (-1) Double.EACCES) (trace r) /\
  largefile_status (trace r) = Some 0 /\
  rmdir_status (trace r) = Some Double.ENOTEMPTY /\
  result r = Double.ENOTEMPTY.
Proof.
  cbn zeta. split; [|vm_compute; repeat split].
  apply list_elem_of_In, list_elem_of_lookup. exists 4%nat. vm_compute. reflexivity.
Qed.

(** C2, as stated, fails: when the allocator refuses, [addb_smap_remove]
    returns ENOMEM at once; no [unlink], no largefile removal and no [rmdir]
    is attempted and the files stay. *)
Lemma addb_smap_remove_out_of_memory_skips_steps :
  let r := addb_smap_remove Double.addb "/data/db" Double.starved in
  steps (trace r) = [] /\
  result r = Double.ENOMEM /\
  Double.d_files (world r) = Double.d_files Double.starved.
Proof. vm_compute. repeat split. Qed.

(** C3, as stated, fails: with nothing on disk, neither partition files nor
    the directory, every [unlink] finds no file, largefile removal reports
    success, [rmdir] fails with ENOENT and that is what is returned. *)
Lemma addb_smap_remove_absent_directory_fails :
  let r := addb_smap_remove Double.addb "/data/db" Double.bare in
  Double.d_dirs Double.bare = [] /\
  Double.d_files Double.bare = [] /\
  unlinks_missing (trace r) = true /\
  largefile_status (trace r) = Some 0 /\
  result r = ENOENT /\
  result r <> 0.
Proof. vm_compute. repeat split. discriminate. Qed.


Lemma addb_smap_remove_missing_files_witness :
  let r := addb_smap_remove Double.addb "/data/db" (Double.populated 0) in
  alloc_ok Double.addb "/data/db" (Double.populated 0) = true /\
  unlinks_missing (trace r) = true /\
  largefile_status (trace r) = Some 0 /\
  rmdir_status (trace r) = Some 0 /\
  result r = 0.
Proof.
  cbn zeta.
  assert (H1 : alloc_ok Double.addb "/data/db" (Double.populated 0) = true)
    by (vm_compute; reflexivity).
  assert (H2 : unlinks_missing
                 (trace (addb_smap_remove Double.addb "/data/db" (Double.populated 0)))
               = true) by (vm_compute; reflexivity).
  assert (H3 : largefile_status
                 (trace (addb_smap_remove Double.addb "/data/db" (Double.populated 0)))
               = Some 0) by (vm_compute; reflexivity).
  assert (H4 : rmdir_status
                 (trace (addb_smap_remove Double.addb "/data/db" (Double.populated 0)))
               = Some 0) by (vm_compute; reflexivity).
  split; [exact H1|]. split; [exact H2|]. split; [exact H3|]. split; [exact H4|].
  exact (addb_smap_remove_missing_files Double.addb "/data/db" (Double.populated 0) 0
           H1 H2 H3 H4).
Defined.

Lemma addb_smap_remove_ignores_unlink_outcomes_witness :
  let r1 := addb_smap_remove Double.addb "/data/db" Double.guarded in
  let r2 := addb_smap_remove Double.addb "/data/db" Double.littered in
  alloc_ok Double.addb "/data/db" Double.guarded = true /\
  alloc_ok Double.addb "/data/db" Double.littered = true /\
  largefile_status (trace r1) = largefile_status (trace r2) /\
  rmdir_status (trace r1) = rmdir_status (trace r2) /\
  result r1 = result r2.
Proof.
  cbn zeta.
  assert (H1 : alloc_ok Double.addb "/data/db" Double.guarded = true)
    by (vm_compute; reflexivity).
  assert (H2 : alloc_ok Double.addb "/data/db" Double.littered = true)
    by (vm_compute; reflexivity).
  assert (H3 : largefile_status
                 (trace (addb_smap_remove Double.addb "/data/db" Double.guarded))
               = largefile_status
                   (trace (addb_smap_remove Double.addb "/data/db" Double.littered)))
    by (vm_compute; reflexivity).
  assert (H4 : rmdir_status
                 (trace (addb_smap_remove Double.addb "/data/db" Double.guarded))
               = rmdir_status
                   (trace (addb_smap_remove Double.addb "/data/db" Double.littered)))
    by (vm_compute; reflexivity).
  split; [exact H1|]. split; [exact H2|]. split; [exact H3|]. split; [exact H4|].
  exact (addb_smap_remove_ignores_unlink_outcomes Double.addb Double.addb
           "/data/db" "/data/db" Double.guarded Double.littered H1 H2 H3 H4).
Defined.

(** ** More on addb_smap_remove *)

Lemma length_append (a b : string) :
  String.length (a +:+ b) = (String.length a + String.length b)%nat.
Proof.
  induction a as [|x a IH]; [reflexivity|].
  change (S (String.length (a +:+ b)) = S (String.length a + String.length b)).
  rewrite IH. reflexivity.
Qed.

Lemma prefix_append (a b : string) : String.prefix a (a +:+ b) = true.
Proof.
  induction a as [|x a IH]; [destruct b; reflexivity|].
  change (String x a +:+ b) with (String x (a +:+ b)).
  simpl String.prefix.
  destruct (ascii_dec x x) as [_|Hx]; [exact IH|congruence].
Qed.

Lemma unlink_events_logged_nil (addb : addb_handle) (f : nat -> string)
    (ios : list (nat * (Z * Z))) :
  logged (flat_map (fun io => unlink_events addb (f io.1) io.2.1 io.2.2) ios) = [] ->
  unlinks_quiet (flat_map (fun io => unlink_events addb (f io.1) io.2.1 io.2.2) ios)
  = true.
Proof.
  unfold logged, unlinks_quiet. induction ios as [|[i [rv en]] ios IH]; [reflexivity|].
  cbn [flat_map]. rewrite omap_app, forallb_app.
  unfold unlink_events at 1 3. cbn [fst snd].
  destruct ((rv =? 0) || (ENOENT =? en)) eqn:E.
  - rewrite omap_cons. cbn [omap list_omap app forallb]. rewrite E.
    intros Hl. rewrite (IH Hl). reflexivity.
  - rewrite !omap_cons. discriminate.
Qed.

Lemma unlink_events_outline (addb : addb_handle) (f : nat -> string)
    (ios : list (nat * (Z * Z))) :
  outline (flat_map (fun io => unlink_events addb (f io.1) io.2.1 io.2.2) ios)
  = replicate (length ios) CallUnlink.
Proof.
  unfold outline. induction ios as [|[i [rv en]] ios IH]; [reflexivity|].
  cbn [flat_map]. rewrite omap_app, IH.
  unfold unlink_events. cbn [fst snd]. rewrite omap_cons.
  destruct ((rv =? 0) || (ENOENT =? en)); reflexivity.
Qed.

Section RemoveMore.
Context {W : Type} `{Addbp W}.

Lemma addb_smap_remove_unlinked (addb : addb_handle) (path : string) (w : W) :
  unlinked (trace (addb_smap_remove addb path w))
  = if alloc_ok addb path w
    then map (partition_path_of addb path) (seq 0 ADDB_GMAP_PARTITIONS_MAX)
    else [].
Proof.
  destruct (alloc_ok addb path w) eqn:Hok.
  - destruct (addb_smap_remove_run addb path w Hok)
      as (outcomes & lf & rv & en & Hlen & -> & _).
    unfold unlinked at 1. rewrite omap_cons, omap_app, !omap_cons, omap_app, omap_cons.
    rewrite log_if_blind by reflexivity.
    fold (unlinked (flat_map (fun io => unlink_events addb (partition_path_of addb path io.1)
                                          io.2.1 io.2.2)
                      (zip (seq 0 ADDB_GMAP_PARTITIONS_MAX) outcomes))).
    rewrite unlink_events_unlinked.
    rewrite <- (fst_zip (seq 0 ADDB_GMAP_PARTITIONS_MAX) outcomes) at 2
      by (rewrite length_seq; lia).
    rewrite <- list_fmap_compose.
    destruct (rv =? 0); cbn; rewrite app_nil_r; reflexivity.
  - destruct (addb_smap_remove_nomem addb path w Hok) as [-> _]. reflexivity.
Qed.

(** X1. When the scratch-buffer allocation fails, [addb_smap_remove] makes
    two calls only, the refused allocation and one log record that names
    cm_malloc, the value of [errno] and the size asked for, and returns that
    value of [errno].  Nothing is freed and no file is touched. *)
Theorem addb_smap_remove_alloc_failure (addb : addb_handle) (path : string) (w : W) :
  alloc_ok addb path w = false ->
  let size := size_add (strlen path) 80 in
  let w1 := (os_cm_malloc (addb_cm addb) size w).2 in
  let r := {| log_cl := addb_cl addb; log_level := CL_LEVEL_ERROR;
              log_called := "cm_malloc"; log_err := os_errno w1;
              log_msg := MsgAllocFailed size |} in
  addb_smap_remove addb path w
  = (os_errno w1, os_cl_log_errno r w1, [Malloc (addb_cm addb) size false; Log r]).
Proof.
  unfold alloc_ok, addb_smap_remove. intros Hno. cbn zeta.
  unfold bind at 1. rewrite cm_malloc_run, Hno. reflexivity.
Qed.

Lemma remove_outline (addb : addb_handle) (path : string) (w : W) :
  outline (trace (addb_smap_remove addb path w))
  = CallMalloc (addb_cm addb) ((strlen path + 80) mod 2 ^ 64)
    :: (if alloc_ok addb path w
        then replicate ADDB_GMAP_PARTITIONS_MAX CallUnlink
             ++ [CallFree (addb_cm addb); CallLargefileRemove path; CallRmdir path]
        else []).
Proof.
  destruct (alloc_ok addb path w) eqn:Hok.
  - destruct (addb_smap_remove_run addb path w Hok)
      as (outcomes & lf & rv & en & Hlen & -> & _).
    unfold outline. rewrite omap_cons, omap_app, !omap_cons, omap_app, omap_cons.
    rewrite log_if_blind by reflexivity.
    fold (outline (flat_map (fun io => unlink_events addb (partition_path_of addb path io.1)
                                         io.2.1 io.2.2)
                     (zip (seq 0 ADDB_GMAP_PARTITIONS_MAX) outcomes))).
    rewrite unlink_events_outline, length_zip, length_seq, Hlen, Nat.min_id.
    cbn [call_of]. unfold size_add.
    destruct (rv =? 0); reflexivity.
  - destruct (addb_smap_remove_nomem addb path w Hok) as [-> _]. reflexivity.
Qed.


(** X3. When the allocation succeeds, the calls of [addb_smap_remove] other
    than log records are, in order: the allocation of [strlen path + 80]
    bytes (modulo 2^64) on the handle's allocator, one [unlink] per partition
    index, one release on the same allocator, largefile removal on [path] and
    [rmdir] on [path].  The buffer is released exactly once, after the last
    [unlink], and both later calls get the directory string as the caller
    passed it. *)
Theorem addb_smap_remove_outline (addb : addb_handle) (path : string) (w : W) :
  outline (trace (addb_smap_remove addb path w))
  = CallMalloc (addb_cm addb) ((strlen path + 80) mod 2 ^ 64)
    :: (if alloc_ok addb path w
        then replicate ADDB_GMAP_PARTITIONS_MAX CallUnlink
             ++ [CallFree (addb_cm addb); CallLargefileRemove path; CallRmdir path]
        else []).
Proof. apply remove_outline. Qed.

End RemoveMore.

Lemma partition_prefix_accounts (path : string) :
  strlen (partition_prefix path).1 + (partition_prefix path).2 = strlen path + 80 /\
  79 <= (partition_prefix path).2 <= 80.
Proof.
  unfold partition_prefix, strlen.
  destruct (last_char path) as [c|]; [destruct (Ascii.eqb c slash)|]; cbn [fst snd].
  - lia.
  - rewrite length_append. cbn [String.length]. lia.
  - lia.
Qed.

Lemma partition_path_split {W : Type} `{Addbp W} (addb : addb_handle) (path : string)
    (i : nat) :
  partition_path_of addb path i
  = (partition_prefix path).1
    +:+ addb_smap_partition_basename addb i (partition_prefix path).2.
Proof. unfold partition_path_of. destruct (partition_prefix path). reflexivity. Qed.

Lemma prefix_refl (a : string) : String.prefix a a = true.
Proof.
  induction a as [|x a IH]; [reflexivity|]. simpl String.prefix.
  destruct (ascii_dec x x); [exact IH|congruence].
Qed.

Lemma partition_prefix_extends (path : string) :
  String.prefix path (partition_prefix path).1 = true.
Proof.
  unfold partition_prefix.
  destruct (last_char path) as [c|]; [destruct (Ascii.eqb c slash)|]; cbn [fst];
    first [apply prefix_refl | apply prefix_append].
Qed.

Lemma prefix_trans_append (a b c : string) :
  String.prefix a b = true -> String.prefix a (b +:+ c) = true.
Proof.
  revert b. induction a as [|x a IH]; intros b; [destruct (b +:+ c); reflexivity|].
  destruct b as [|y b]; [discriminate|].
  change (String y b +:+ c) with (String y (b +:+ c)). simpl String.prefix.
  destruct (ascii_dec x y); [apply IH|discriminate].
Qed.

Section RemovePaths.
Context {W : Type} `{Addbp W}.

(** X2. The scratch buffer is sized for what is written into it.  What the
    directory string and the added slash take, plus the capacity handed to
    the basename helper, is always [strlen path + 80], and that capacity is 79
    or 80.  So whenever the helper keeps its name, terminator included,
    within the capacity it is given, the partition path with its terminator
    fits the [strlen path + 80] bytes asked from the allocator. *)
Theorem partition_path_fits_buffer (addb : addb_handle) (path : string) (i : nat) :
  strlen (addb_smap_partition_basename addb i (partition_prefix path).2)
    < (partition_prefix path).2 ->
  strlen (partition_prefix path).1 + (partition_prefix path).2 = strlen path + 80 /\
  79 <= (partition_prefix path).2 <= 80 /\
  strlen (partition_path_of addb path i) + 1 <= strlen path + 80.
Proof.
  intros Hfit. destruct (partition_prefix_accounts path) as [Hsum Hcap].
  split; [exact Hsum|]. split; [exact Hcap|].
  rewrite partition_path_split. unfold strlen in *. rewrite length_append. lia.
Qed.

(** X4. When the allocation succeeds, [addb_smap_remove] returns what
    largefile removal returned if that is not 0, and otherwise the error code
    of [rmdir] (0 if [rmdir] returned 0, [errno] if not).  An [rmdir] error is
    therefore returned only when largefile removal succeeded, and the result
    is 0 exactly when both codes are 0. *)
Theorem addb_smap_remove_return_value (addb : addb_handle) (path : string) (w : W)
    (lf st : Z) :
  alloc_ok addb path w = true ->
  largefile_status (trace (addb_smap_remove addb path w)) = Some lf ->
  rmdir_status (trace (addb_smap_remove addb path w)) = Some st ->
  result (addb_smap_remove addb path w) = (if lf =? 0 then st else lf) /\
  (result (addb_smap_remove addb path w) = 0 <-> lf = 0 /\ st = 0).
Proof.
  intros Hok Hlf Hst.
  destruct (addb_smap_remove_status addb path w Hok) as (lf' & st' & Hl & Hs & Hr).
  rewrite Hl in Hlf. rewrite Hs in Hst. injection Hlf as ->. injection Hst as ->.
  rewrite Hr. unfold removal_status. split; [reflexivity|].
  destruct (lf =? 0) eqn:E.
  - apply Z.eqb_eq in E. subst lf. tauto.
  - apply Z.eqb_neq in E. tauto.
Qed.

(** X5. A run of [addb_smap_remove] that hands nothing to the log sink has
    succeeded throughout: the buffer was allocated, every [unlink] succeeded
    or found no file, and the value returned is 0.  Put the other way round,
    a nonzero return value always comes with at least one log record. *)
Theorem addb_smap_remove_quiet_run (addb : addb_handle) (path : string) (w : W) :
  logged (trace (addb_smap_remove addb path w)) = [] ->
  alloc_ok addb path w = true /\
  unlinks_quiet (trace (addb_smap_remove addb path w)) = true /\
  result (addb_smap_remove addb path w) = 0.
Proof.
  intros Hq. destruct (alloc_ok addb path w) eqn:Hok.
  - split; [reflexivity|].
    destruct (addb_smap_remove_run addb path w Hok)
      as (outcomes & lf & rv & en & Hlen & Ht & Hr).
    rewrite Ht in Hq |- *. rewrite Hr. clear Ht Hr.
    unfold logged in Hq. rewrite omap_cons, omap_app, !omap_cons, omap_app, omap_cons in Hq.
    cbn iota in Hq.
    apply app_eq_nil in Hq as [Hloop Hrest].
    apply app_eq_nil in Hrest as [Hlf Hrd].
    fold (logged (log_if (addb_cl addb) "addb_largefile_remove" lf
                    (MsgCantRemoveLargefiles path))) in Hlf.
    rewrite log_if_logged, filter_cons in Hlf.
    destruct (decide (lf <> 0)) as [Hne|Heq]; [discriminate|].
    assert (lf = 0) as -> by lia.
    destruct (rv =? 0) eqn:Hrv; [|discriminate].
    split; [|reflexivity].
    unfold unlinks_quiet. cbn [forallb andb]. rewrite forallb_app.
    apply andb_true_iff. split; [|reflexivity].
    apply unlink_events_logged_nil. exact Hloop.
  - exfalso. destruct (addb_smap_remove_nomem addb path w Hok) as [Ht _].
    rewrite Ht in Hq. discriminate.
Qed.

(** X6. Every path handed to [unlink] begins with the directory string the
    caller passed: the loop builds its paths by appending to that string and
    never shortens or rewrites it. *)
Theorem addb_smap_remove_unlinks_under_path (addb : addb_handle) (path : string)
    (w : W) :
  Forall (fun p => String.prefix path p = true)
    (unlinked (trace (addb_smap_remove addb path w))).
Proof.
  rewrite addb_smap_remove_unlinked.
  destruct (alloc_ok addb path w); [|constructor].
  apply Forall_forall. intros p [i [<- _]]%list_elem_of_In%in_map_iff.
  rewrite partition_path_split.
  apply prefix_trans_append, partition_prefix_extends.
Qed.

(** X7. When the basename helper writes different names for different
    indices below ADDB_GMAP_PARTITIONS_MAX, no path is handed to [unlink]
    twice in a run. *)
Theorem addb_smap_remove_unlinks_distinct (addb : addb_handle) (path : string) (w : W) :
  NoDup (map (fun i => addb_smap_partition_basename addb i (partition_prefix path).2)
           (seq 0 ADDB_GMAP_PARTITIONS_MAX)) ->
  NoDup (unlinked (trace (addb_smap_remove addb path w))).
Proof.
  intros Hnd. rewrite addb_smap_remove_unlinked.
  destruct (alloc_ok addb path w); [|constructor].
  replace (map (partition_path_of addb path) (seq 0 ADDB_GMAP_PARTITIONS_MAX))
    with (String.append (partition_prefix path).1
            <$> map (fun i => addb_smap_partition_basename addb i
                                (partition_prefix path).2)
                  (seq 0 ADDB_GMAP_PARTITIONS_MAX)).
  - apply NoDup_fmap_2; [apply String.app_inj|exact Hnd].
  - change (map ?f ?l) with (f <$> l). rewrite <- list_fmap_compose.
    apply list_fmap_ext. intros _ i _. cbn. symmetry. apply partition_path_split.
Qed.

End RemovePaths.

(** ** More on addb_smap_truncate *)

Lemma backup_events_blind {A} (g : event -> option A) (addb : addb_handle)
    (trs : list (addb_tiled * string * Z)) :
  (forall td on rv, g (TiledBackup td on rv) = None) ->
  (forall r, g (Log r) = None) ->
  omap g (flat_map (fun tr => backup_events addb tr.1 tr.2) trs) = [].
Proof.
  intros Hb Hl. induction trs as [|[tp e] trs IH]; [reflexivity|].
  cbn [flat_map]. rewrite omap_app, IH. unfold backup_events.
  rewrite omap_cons, Hb, log_if_blind by exact Hl. reflexivity.
Qed.

Lemma backup_events_outline (addb : addb_handle)
    (trs : list (addb_tiled * string * Z)) :
  outline (flat_map (fun tr => backup_events addb tr.1 tr.2) trs)
  = map (fun tr => CallTiledBackup tr.1.1 false) trs.
Proof.
  unfold outline. induction trs as [|[tp e] trs IH]; [reflexivity|].
  cbn [flat_map]. rewrite omap_app, IH. unfold backup_events.
  rewrite omap_cons, log_if_blind by reflexivity. reflexivity.
Qed.

Section TruncateMore.
Context {W : Type} `{Addbp W}.

Lemma addb_smap_remove_alloc_results (addb : addb_handle) (path : string) (w : W) :
  alloc_results (trace (addb_smap_remove addb path w)) = [alloc_ok addb path w].
Proof.
  destruct (alloc_ok addb path w) eqn:Hok.
  - destruct (addb_smap_remove_run addb path w Hok)
      as (outcomes & lf & rv & en & _ & -> & _).
    unfold alloc_results. rewrite omap_cons, omap_app, !omap_cons, omap_app, omap_cons.
    rewrite log_if_blind by reflexivity.
    rewrite omap_loop_events; [| loop_blind | apply unlink_events_loop].
    destruct (rv =? 0); reflexivity.
  - destruct (addb_smap_remove_nomem addb path w Hok) as [-> _]. reflexivity.
Qed.

(** X8. The files [addb_smap_truncate] unlinks are named from its [path]
    argument alone: when the one allocation of the run succeeds they are the
    partition paths of [path] for every index below ADDB_GMAP_PARTITIONS_MAX,
    whatever [sm_partition_n] is and whatever [part_path] the slots carry;
    when it fails, nothing is unlinked. *)
Theorem addb_smap_truncate_unlinks_from_path (sm : addb_smap) (path : string) (w : W) :
  exists ok : bool,
    alloc_results (trace (addb_smap_truncate (Some sm) path w)) = [ok] /\
    unlinked (trace (addb_smap_truncate (Some sm) path w))
    = if ok
      then map (partition_path_of (sm_addb sm) path) (seq 0 ADDB_GMAP_PARTITIONS_MAX)
      else [].
Proof.
  destruct (addb_smap_truncate_run sm path w) as (rs & c & w1 & _ & Ht & _).
  exists (alloc_ok (sm_addb sm) path w1). rewrite Ht. split.
  - unfold alloc_results. rewrite omap_app, omap_cons, !omap_app.
    rewrite backup_events_blind, !log_if_blind by reflexivity.
    fold (alloc_results (trace (addb_smap_remove (sm_addb sm) path w1))).
    rewrite addb_smap_remove_alloc_results. reflexivity.
  - unfold unlinked at 1. rewrite omap_app, omap_cons, !omap_app.
    rewrite backup_events_blind, !log_if_blind by reflexivity.
    fold (unlinked (trace (addb_smap_remove (sm_addb sm) path w1))).
    rewrite addb_smap_remove_unlinked. cbn [app]. apply app_nil_r.
Qed.

(** X9. On an smap with no live slot or with one, [addb_smap_truncate]
    toggles no backup: its first call is the close. *)
Theorem addb_smap_truncate_few_slots (sm : addb_smap) (path : string) (w : W) :
  (sm_partition_n sm <= 1)%nat ->
  backup_calls (trace (addb_smap_truncate (Some sm) path w)) = [] /\
  exists c rest, trace (addb_smap_truncate (Some sm) path w) = SmapClose sm c :: rest.
Proof.
  intros Hn.
  destruct (addb_smap_truncate_run sm path w) as (rs & c & w1 & _ & Ht & _).
  assert (Hslots : attached (backup_slots sm) = []).
  { unfold backup_slots. replace (sm_partition_n sm - 1)%nat with 0%nat by lia.
    reflexivity. }
  rewrite Hslots in Ht. cbn [zip zip_with flat_map app] in Ht. rewrite Ht.
  split; [|eauto].
  unfold backup_calls. rewrite omap_cons, !omap_app.
  rewrite !log_if_blind by reflexivity.
  rewrite (omap_remove_events _ (trace (addb_smap_remove (sm_addb sm) path w1)))
    by (try apply addb_smap_remove_events; intros [] ?; first [reflexivity|discriminate]).
  reflexivity.
Qed.

(** X10. [addb_smap_truncate] on a non-null smap makes one allocation, and
    its calls, log records aside, are in order: a backup toggle with the flag off for each
    descriptor in the slots before the last live one; the close; one
    allocation of [strlen path + 80] bytes (modulo 2^64) on the allocator of
    the smap's handle; and then, when that allocation succeeded, one [unlink]
    per partition index, the release of the buffer, largefile removal on
    [path] and [rmdir] on [path].  When the allocation failed the run ends
    there: the smap has been closed and no file has been touched. *)
Theorem addb_smap_truncate_outline (sm : addb_smap) (path : string) (w : W) :
  exists ok : bool,
    alloc_results (trace (addb_smap_truncate (Some sm) path w)) = [ok] /\
    outline (trace (addb_smap_truncate (Some sm) path w))
    = map (fun td => CallTiledBackup td false)
        (omap part_td (take (sm_partition_n sm - 1) (sm_partition sm)))
      ++ CallSmapClose
      :: CallMalloc (addb_cm (sm_addb sm)) ((strlen path + 80) mod 2 ^ 64)
      :: (if ok
          then replicate ADDB_GMAP_PARTITIONS_MAX CallUnlink
               ++ [CallFree (addb_cm (sm_addb sm)); CallLargefileRemove path;
                   CallRmdir path]
          else []).
Proof.
  destruct (addb_smap_truncate_run sm path w) as (rs & c & w1 & Hlen & Ht & _).
  exists (alloc_ok (sm_addb sm) path w1). rewrite Ht. split.
  { unfold alloc_results. rewrite omap_app, omap_cons, !omap_app.
    rewrite backup_events_blind, !log_if_blind by reflexivity.
    fold (alloc_results (trace (addb_smap_remove (sm_addb sm) path w1))).
    rewrite addb_smap_remove_alloc_results. reflexivity. }
  unfold outline at 1. rewrite omap_app, omap_cons, !omap_app.
  rewrite !log_if_blind by reflexivity.
  fold (outline (flat_map (fun tr => backup_events (sm_addb sm) tr.1 tr.2)
                   (zip (attached (backup_slots sm)) rs))).
  fold (outline (trace (addb_smap_remove (sm_addb sm) path w1))).
  rewrite backup_events_outline, remove_outline.
  cbn [call_of app]. rewrite app_nil_r. f_equal.
  fold (backup_slots sm). rewrite <- attached_descriptors.
  rewrite <- (fst_zip (attached (backup_slots sm)) rs) at 2 by lia.
  change (map ?f ?l) with (f <$> l). rewrite <- !list_fmap_compose. reflexivity.
Qed.

End TruncateMore.

(** ** The further properties on the test double *)

Example remove_soured :
  let r := addb_smap_remove Double.addb "/data/db" Double.soured in
  result r = 5 /\ logged (trace r) = [5; Double.ENOTEMPTY] /\
  Double.d_files (world r) = ["/data/db/stray"].
Proof. vm_compute. repeat split. Qed.

Lemma addb_smap_remove_alloc_failure_witness :
  alloc_ok Double.addb "/data/db" Double.starved = false /\
  result (addb_smap_remove Double.addb "/data/db" Double.starved) = Double.ENOMEM /\
  length (trace (addb_smap_remove Double.addb "/data/db" Double.starved)) = 2%nat.
Proof.
  assert (H1 : alloc_ok Double.addb "/data/db" Double.starved = false) by reflexivity.
  split; [exact H1|].
  rewrite (addb_smap_remove_alloc_failure Double.addb "/data/db" Double.starved H1).
  split; reflexivity.
Defined.

Lemma partition_path_fits_buffer_witness :
  strlen (addb_smap_partition_basename Double.addb 5 (partition_prefix "/data/db").2)
    < (partition_prefix "/data/db").2 /\
  strlen (partition_prefix "/data/db").1 + (partition_prefix "/data/db").2
    = strlen "/data/db" + 80 /\
  79 <= (partition_prefix "/data/db").2 <= 80 /\
  strlen (partition_path_of Double.addb "/data/db" 5) + 1 <= strlen "/data/db" + 80.
Proof.
  assert (H1 : strlen (addb_smap_partition_basename Double.addb 5
                         (partition_prefix "/data/db").2)
               < (partition_prefix "/data/db").2) by (vm_compute; reflexivity).
  split; [exact H1|].
  exact (partition_path_fits_buffer Double.addb "/data/db" 5 H1).
Defined.

Lemma addb_smap_remove_return_value_witness :
  let r := addb_smap_remove Double.addb "/data/db" Double.soured in
  alloc_ok Double.addb "/data/db" Double.soured = true /\
  largefile_status (trace r) = Some 5 /\
  rmdir_status (trace r) = Some Double.ENOTEMPTY /\
  result r = 5.
Proof.
  cbn zeta.
  assert (H1 : alloc_ok Double.addb "/data/db" Double.soured = true) by reflexivity.
  assert (H2 : largefile_status
                 (trace (addb_smap_remove Double.addb "/data/db" Double.soured))
               = Some 5) by (vm_compute; reflexivity).
  assert (H3 : rmdir_status
                 (trace (addb_smap_remove Double.addb "/data/db" Double.soured))
               = Some Double.ENOTEMPTY) by (vm_compute; reflexivity).
  split; [exact H1|]. split; [exact H2|]. split; [exact H3|].
  exact (proj1 (addb_smap_remove_return_value Double.addb "/data/db" Double.soured
                  5 Double.ENOTEMPTY H1 H2 H3)).
Defined.

Lemma addb_smap_remove_quiet_run_witness :
  let r := addb_smap_remove Double.addb "/data/db" (Double.populated 5) in
  logged (trace r) = [] /\
  alloc_ok Double.addb "/data/db" (Double.populated 5) = true /\
  unlinks_quiet (trace r) = true /\
  result r = 0.
Proof.
  cbn zeta.
  assert (H1 : logged (trace (addb_smap_remove Double.addb "/data/db"
                                (Double.populated 5))) = [])
    by (vm_compute; reflexivity).
  split; [exact H1|].
  exact (addb_smap_remove_quiet_run Double.addb "/data/db" (Double.populated 5) H1).
Defined.

Lemma addb_smap_remove_unlinks_distinct_witness :
  NoDup (map (fun i => @addb_smap_partition_basename _ Double.services8 Double.addb i
                         (partition_prefix "/data/db").2)
           (seq 0 (@ADDB_GMAP_PARTITIONS_MAX _ Double.services8))) /\
  NoDup (unlinked (trace (@addb_smap_remove _ Double.services8 Double.addb "/data/db"
                            (Double.populated 5)))).
Proof.
  assert (H1 : NoDup (map (fun i => @addb_smap_partition_basename _ Double.services8
                                      Double.addb i (partition_prefix "/data/db").2)
                        (seq 0 (@ADDB_GMAP_PARTITIONS_MAX _ Double.services8)))).
  { apply (bool_decide_unpack _). vm_compute. exact I. }
  split; [exact H1|].
  exact (@addb_smap_remove_unlinks_distinct _ Double.services8 Double.addb "/data/db"
           (Double.populated 5) H1).
Defined.

Lemma addb_smap_truncate_few_slots_witness :
  let r := addb_smap_truncate (Some Double.smap1) "/data/db" (Double.populated 1) in
  (sm_partition_n Double.smap1 <= 1)%nat /\
  backup_calls (trace r) = [] /\
  exists c rest, trace r = SmapClose Double.smap1 c :: rest.
Proof.
  cbn zeta.
  assert (H1 : (sm_partition_n Double.smap1 <= 1)%nat) by (cbn; lia).
  split; [exact H1|].
  exact (addb_smap_truncate_few_slots Double.smap1 "/data/db" (Double.populated 1) H1).
Defined.

(** ** The steps of addb_smap_remove and its loop *)

Lemma strip_slash_append (s : string) :
  strip_slash (s +:+ String slash EmptyString) = s.
Proof.
  induction s as [|x s IH]; [reflexivity|].
  change (strip_slash (String x (s +:+ String slash EmptyString)) = String x s).
  destruct (s +:+ String slash EmptyString) as [|y t] eqn:E.
  - destruct s; discriminate.
  - change (String x (strip_slash (String y t)) = String x s). rewrite IH. reflexivity.
Qed.

Section RemoveSteps.
Context {W : Type} `{Addbp W}.

Lemma addb_smap_remove_refused (addb : addb_handle) (path : string) (w : W) :
  alloc_ok addb path w = false ->
  addb_smap_remove addb path w
  = (os_errno (os_cm_malloc (addb_cm addb) (size_add (strlen path) 80) w).2,
     os_cl_log_errno
       {| log_cl := addb_cl addb; log_level := CL_LEVEL_ERROR;
          log_called := "cm_malloc";
          log_err := os_errno (os_cm_malloc (addb_cm addb)
                                 (size_add (strlen path) 80) w).2;
          log_msg := MsgAllocFailed (size_add (strlen path) 80) |}
       (os_cm_malloc (addb_cm addb) (size_add (strlen path) 80) w).2,
     [Malloc (addb_cm addb) (size_add (strlen path) 80) false;
      Log {| log_cl := addb_cl addb; log_level := CL_LEVEL_ERROR;
             log_called := "cm_malloc";
             log_err := os_errno (os_cm_malloc (addb_cm addb)
                                    (size_add (strlen path) 80) w).2;
             log_msg := MsgAllocFailed (size_add (strlen path) 80) |}]).
Proof.
  unfold alloc_ok, addb_smap_remove. intros Hno.
  unfold bind at 1. rewrite cm_malloc_run, Hno. reflexivity.
Qed.

Lemma addb_smap_remove_loop (addb : addb_handle) (path : string) (w : W) :
  alloc_ok addb path w = true ->
  exists rest : list event,
    trace (addb_smap_remove addb path w)
      = Malloc (addb_cm addb) (size_add (strlen path) 80) true
        :: trace (remove_partitions addb path ADDB_GMAP_PARTITIONS_MAX 0 None
                    (os_cm_malloc (addb_cm addb) (size_add (strlen path) 80) w).2)
        ++ Free (addb_cm addb) :: rest /\
    unlinked rest = [].
Proof.
  unfold alloc_ok, addb_smap_remove. intros Hok.
  rewrite trace_bind, cm_malloc_run.
  cbn [trace result world fst snd]. rewrite Hok. cbn [negb].
  set (w1 := (os_cm_malloc _ _ w).2).
  rewrite trace_bind.
  set (w2 := world (remove_partitions _ _ _ _ _ w1)).
  rewrite trace_bind. cbn [cm_free trace result world fst snd].
  rewrite trace_bind, addb_largefile_remove_run.
  cbn [trace result world fst snd].
  set (lf := (os_addb_largefile_remove _ _ _ _).1).
  rewrite trace_bind.
  set (w4 := world _).
  rewrite trace_bind, rmdir_run. cbn [trace result world fst snd].
  set (rv := (os_rmdir path w4).1). set (w5 := (os_rmdir path w4).2).
  eexists. split; [cbn [app]; reflexivity|].
  unfold unlinked. rewrite omap_cons, !omap_app, omap_cons. cbn iota.
  destruct (lf =? 0), (rv =? 0); reflexivity.
Qed.

(** C2, amended. When the scratch buffer is allocated, [addb_smap_remove]
    attempts all three steps in order, whatever any of them returns: one
    [unlink] for the partition path of each index 0, 1, ...,
    ADDB_GMAP_PARTITIONS_MAX - 1, then largefile removal, then [rmdir].  When
    the allocation fails it logs that, returns [errno] and attempts none of
    the three: the refused allocation and the log record are its only
    calls. *)
Theorem addb_smap_remove_attempts_all_steps (addb : addb_handle) (path : string)
    (w : W) :
  if alloc_ok addb path w
  then
    steps (trace (addb_smap_remove addb path w))
      = replicate ADDB_GMAP_PARTITIONS_MAX StepPartition
        ++ [StepLargefile; StepDirectory] /\
    unlinked (trace (addb_smap_remove addb path w))
      = map (partition_path_of addb path) (seq 0 ADDB_GMAP_PARTITIONS_MAX)
  else
    let size := size_add (strlen path) 80 in
    let w1 := (os_cm_malloc (addb_cm addb) size w).2 in
    let r := {| log_cl := addb_cl addb; log_level := CL_LEVEL_ERROR;
                log_called := "cm_malloc"; log_err := os_errno w1;
                log_msg := MsgAllocFailed size |} in
    addb_smap_remove addb path w
      = (os_errno w1, os_cl_log_errno r w1, [Malloc (addb_cm addb) size false; Log r]) /\
    steps (trace (addb_smap_remove addb path w)) = [].
Proof.
  destruct (alloc_ok addb path w) eqn:Hok.
  - split; [apply addb_smap_remove_steps, Hok|].
    rewrite addb_smap_remove_unlinked, Hok. reflexivity.
  - cbn zeta. rewrite (addb_smap_remove_refused addb path w Hok). split; reflexivity.
Qed.

(** C4. Once its scratch buffer is allocated, [addb_smap_remove] runs the
    partition loop from index 0 for ADDB_GMAP_PARTITIONS_MAX turns, the
    constant and not a partition count: between the allocation and the
    release of the buffer its calls are those of the loop, and the paths it
    hands to [unlink] are the partition paths of the indices 0, 1, ...,
    ADDB_GMAP_PARTITIONS_MAX - 1 in that order, whatever the calls return.
    In each turn a call that fails with ENOENT leaves no log record and sets
    [err] to 0; a call that fails with another code is logged with that code
    and the path and the code is stored in [err]; either way the next index
    follows. *)
Theorem addb_smap_remove_attempts_every_index (addb : addb_handle) (path : string)
    (w : W) :
  alloc_ok addb path w = true ->
  let loop := remove_partitions addb path ADDB_GMAP_PARTITIONS_MAX 0 None
                (os_cm_malloc (addb_cm addb) (size_add (strlen path) 80) w).2 in
  exists (outcomes : list (Z * Z)) (rest : list event),
    length outcomes = ADDB_GMAP_PARTITIONS_MAX /\
    trace (addb_smap_remove addb path w)
      = Malloc (addb_cm addb) (size_add (strlen path) 80) true
        :: trace loop ++ Free (addb_cm addb) :: rest /\
    unlinked rest = [] /\
    unlinked (trace (addb_smap_remove addb path w))
      = map (partition_path_of addb path) (seq 0 ADDB_GMAP_PARTITIONS_MAX) /\
    trace loop
      = flat_map (fun io => unlink_events addb (partition_path_of addb path io.1)
                              io.2.1 io.2.2)
          (zip (seq 0 ADDB_GMAP_PARTITIONS_MAX) outcomes) /\
    result loop = fold_left (fun e o => err_after e o.1 o.2) outcomes None.
Proof.
  intros Hok loop.
  destruct (addb_smap_remove_loop addb path w Hok) as (rest & Ht & Hrest).
  destruct (remove_partitions_run addb path ADDB_GMAP_PARTITIONS_MAX 0 None
              (os_cm_malloc (addb_cm addb) (size_add (strlen path) 80) w).2)
    as (outcomes & Hlen & Hloop & Hres).
  fold loop in Ht, Hloop, Hres.
  exists outcomes, rest. repeat split; try assumption.
  rewrite addb_smap_remove_unlinked, Hok. reflexivity.
Qed.


End RemoveSteps.

Lemma addb_smap_remove_attempts_every_index_witness :
  alloc_ok Double.addb "/data/db" Double.guarded = true /\
  unlinked (trace (addb_smap_remove Double.addb "/data/db" Double.guarded))
  = map (partition_path_of Double.addb "/data/db") (seq 0 ADDB_GMAP_PARTITIONS_MAX).
Proof.
  assert (H1 : alloc_ok Double.addb "/data/db" Double.guarded = true) by reflexivity.
  split; [exact H1|].
  destruct (addb_smap_remove_attempts_every_index Double.addb "/data/db"
              Double.guarded H1) as (outcomes & rest & _ & _ & _ & Hu & _).
  exact Hu.
Defined.

